(** * Coffee quotations: history reconciliation and price summary

    A shallow embedding of the two collectors of the repository,

    - [scripts/coletar_cafe_cepea.py] (module [Cepea]): [load_history],
      [dedup], [update_price_summary] and the part of [main] that joins them,
      then [fetch], [parse_hist_from_text] and [parse_with_fallback];
    - [scrape_prices.py] (module [Scrape]): [is_market_open] and
      [update_history], then the date [main] keeps and [format_brl];

    followed by the properties of the history merge, of the summary and of
    the market-open flag.

    Python values are modelled as follows.  A [str] is a [string]; the dates
    and timestamps the collectors handle are ASCII, where the order of
    [String.compare] is Python's order on [str] and [s[:10]] is
    [substring 0 10 s].  A [dict] is an association list in insertion order,
    as Python iterates it.  A call that can raise returns a [result]. *)

From Stdlib Require Import ZArith List String Ascii Bool Lia.
From Stdlib Require Import Sorted Permutation OrderedTypeEx.
Import ListNotations.

Local Open Scope string_scope.
Local Open Scope list_scope.

(** ** Python primitives *)

Module Py.

(** [a < b], [a <= b], [a > b], [a >= b] on [str]. *)
Definition str_lt (a b : string) : bool := String.ltb a b.
Definition str_le (a b : string) : bool := String.leb a b.
Definition str_gt (a b : string) : bool := String.ltb b a.
Definition str_ge (a b : string) : bool := String.leb b a.

(** Truth value of a [str]: the empty string is false. *)
Definition truthy (s : string) : bool := negb (s =? EmptyString).

(** [x or d], where [x] is [None] or a [str]. *)
Definition or_str (x : option string) (d : string) : string :=
  match x with
  | Some s => if truthy s then s else d
  | None => d
  end.

(** [s[:10]]. *)
Definition slice10 (s : string) : string := substring 0 10 s.

(** [==] on values that are [None] or a [str]. *)
Definition opt_eqb (x y : option string) : bool :=
  match x, y with
  | Some a, Some b => a =? b
  | None, None => true
  | _, _ => false
  end.

(** The exceptions met below. *)
Inductive exn : Type :=
| AttributeError
| KeyError
| TypeError
| UnicodeDecodeError.

Inductive result (A : Type) : Type :=
| Ok (a : A)
| Raise (e : exn).
Arguments Ok {A} a.
Arguments Raise {A} e.

Definition bind {A B : Type} (m : result A) (f : A -> result B) : result B :=
  match m with
  | Ok a => f a
  | Raise e => Raise e
  end.

Fixpoint mapM {A B : Type} (f : A -> result B) (l : list A) : result (list B) :=
  match l with
  | [] => Ok []
  | x :: l' => bind (f x) (fun y => bind (mapM f l') (fun ys => Ok (y :: ys)))
  end.

(** [<] on 3-tuples of [str]: the first component that differs decides. *)
Definition tuple3_lt (a b : string * string * string) : bool :=
  let '(a1, a2, a3) := a in
  let '(b1, b2, b3) := b in
  if negb (a1 =? b1) then str_lt a1 b1
  else if negb (a2 =? b2) then str_lt a2 b2
  else str_lt a3 b3.

(** [sorted(l, key=key)]: the stable sort.  An element goes in front of the
    first element of the sorted tail whose key is not smaller than its own,
    so that elements with equal keys keep the order of the input. *)
Section Sorted.
Context {A K : Type}.
Variable key : A -> K.
Variable lt : K -> K -> bool.

Fixpoint insert (x : A) (l : list A) : list A :=
  match l with
  | [] => [x]
  | y :: l' => if lt (key y) (key x) then y :: insert x l' else x :: y :: l'
  end.

Definition sorted (l : list A) : list A := fold_right insert [] l.

(** [sorted(l, key=key, reverse=True)]: descending and still stable. *)
Fixpoint insert_rev (x : A) (l : list A) : list A :=
  match l with
  | [] => [x]
  | y :: l' => if lt (key x) (key y) then y :: insert_rev x l' else x :: y :: l'
  end.

Definition sorted_rev (l : list A) : list A := fold_right insert_rev [] l.
End Sorted.

(** A [dict] in insertion order.  [set] on a key that is present replaces
    the value where it stands; a new key goes to the end. *)
Section Dict.
Context {K V : Type}.
Variable eqb : K -> K -> bool.

Definition dict : Type := list (K * V).

Fixpoint get (k : K) (d : dict) : option V :=
  match d with
  | [] => None
  | (k', v) :: d' => if eqb k k' then Some v else get k d'
  end.

Fixpoint set (k : K) (v : V) (d : dict) : dict :=
  match d with
  | [] => [(k, v)]
  | (k', v') :: d' => if eqb k k' then (k, v) :: d' else (k', v') :: set k v d'
  end.

Definition keys (d : dict) : list K := map fst d.
Definition values (d : dict) : list V := map snd d.
End Dict.

End Py.

Import Py.

(** [s.replace(old, new)] where [old] is one character: every occurrence of
    the character gives way to [new]. *)
Module PyStr.

Fixpoint replace (old : ascii) (new : string) (s : string) : string :=
  match s with
  | EmptyString => EmptyString
  | String c s' =>
      if Ascii.eqb c old then new ++ replace old new s'
      else String c (replace old new s')
  end.

(** [s.startswith(p)]. *)
Definition startswith (p s : string) : bool := String.prefix p s.

End PyStr.

(** ** JSON documents *)

(** A number of a document.  Prices have two decimals; they are kept in
    hundredths.  No operation below computes with a number. *)
Definition number : Type := Z.

#[local] Unset Elimination Schemes.
Inductive json : Type :=
| JNull
| JBool (b : bool)
| JNum (n : number)
| JStr (s : string)
| JList (l : list json)
| JObj (o : list (string * json)).
#[local] Set Elimination Schemes.

(** What opening and [json.load]ing a path finds. *)
Inductive file : Type :=
| NoFile                (* the path does not exist *)
| BadBytes              (* the content is not UTF-8 *)
| BadJson               (* the content is not a JSON text *)
| Json (j : json).      (* the parsed content *)

(** A field read with [.get]: [None] when the key is absent or holds [null]. *)
Definition field (k : string) (o : list (string * json)) : result (option string) :=
  match get String.eqb k o with
  | None => Ok None
  | Some JNull => Ok None
  | Some (JStr s) => Ok (Some s)
  | Some _ => Raise TypeError
  end.

(** The items of an object other than the listed keys. *)
Definition without (ks : list string) (o : list (string * json)) : list (string * json) :=
  filter (fun kv => negb (existsb (String.eqb (fst kv)) ks)) o.

(** ** scripts/coletar_cafe_cepea.py *)

Module Cepea.

(** A row of the history: the dict of one quotation.  The keys the script
    reads are fields; [produto] and [referente_a] are [None] when the key is
    absent or holds [null], [tipo] and [valor] when the key is absent.
    [coletado_em] is read with [r["coletado_em"]] on every row, so a row has
    it.  The other items of the dict ([moeda], [fonte_url], ...) travel in
    [others]. *)
Record row : Type := mkRow {
  produto : option string;
  tipo : option string;
  valor : option json;
  referente_a : option string;
  coletado_em : string;
  others : list (string * json)
}.

(** An element of the loaded list seen as a row.  [dedup] calls [r.get] on
    it, which raises [AttributeError] on anything but a dict, and reads
    [r["coletado_em"]] (in the key or in the sort), which raises [KeyError]
    when the key is missing.  A field holding a JSON value of a type the
    row has no room for is outside the model; [as_row] stops there with
    [TypeError], where the script may go on.  The elements are read one
    after the other before the merge: on a list with several elements that
    are not rows, the exception is the one of the first, where the script
    reports the first it meets in its loop. *)
Definition as_row (j : json) : result row :=
  match j with
  | JObj o =>
      bind (field "produto" o) (fun p =>
      bind (match get String.eqb "tipo" o with
            | None => Ok None
            | Some (JStr s) => Ok (Some s)
            | Some _ => Raise TypeError
            end) (fun t =>
      bind (field "referente_a" o) (fun d =>
      bind (match get String.eqb "coletado_em" o with
            | None => Raise KeyError
            | Some (JStr s) => Ok s
            | Some _ => Raise TypeError
            end) (fun c =>
      Ok (mkRow p t (get String.eqb "valor" o) d c
            (without ["produto"; "tipo"; "valor"; "referente_a"; "coletado_em"] o))))))
  | _ => Raise AttributeError
  end.

(** [load_history]: a missing file and any exception of [open] or
    [json.load] give the empty list; otherwise the parsed value, whatever
    it is. *)
Definition load_history (f : file) : json :=
  match f with
  | NoFile => JList []
  | BadBytes => JList []
  | BadJson => JList []
  | Json j => j
  end.

(** [r.get("referente_a") or r["coletado_em"][:10]]. *)
Definition effective_date (r : row) : string :=
  or_str (referente_a r) (slice10 (coletado_em r)).

(** The key of [dedup]: [(produto, tipo, effective date)]. *)
Definition ident : Type := (option string * option string * string)%type.

Definition ident_eqb (a b : ident) : bool :=
  let '(a1, a2, a3) := a in
  let '(b1, b2, b3) := b in
  opt_eqb a1 b1 && opt_eqb a2 b2 && (a3 =? b3).

Definition key (r : row) : ident := (produto r, tipo r, effective_date r).

(** One turn of the loop of [dedup].  A row is a non-empty dict, so
    [not prev] holds exactly when the key is new. *)
Definition dedup_step (d : dict (K := ident) (V := row)) (r : row) : dict :=
  match get ident_eqb (key r) d with
  | None => set ident_eqb (key r) r d
  | Some prev =>
      if str_gt (coletado_em r) (coletado_em prev)
      then set ident_eqb (key r) r d
      else d
  end.

Definition dedup_dict (rows : list row) : dict := fold_left dedup_step rows [].

(** The key of the final sort:
    [(x.get("referente_a") or '', x.get("tipo", ''), x["coletado_em"])]. *)
Definition sort_key (x : row) : string * string * string :=
  (or_str (referente_a x) EmptyString,
   match tipo x with Some t => t | None => EmptyString end,
   coletado_em x).

Definition dedup (rows : list row) : list row :=
  sorted sort_key tuple3_lt (values (dedup_dict rows)).

(** [latest] of [update_price_summary]: per [tipo], the [ref_date] and the
    [valor] of the first row of the greatest [ref_date].  [r["valor"]] is
    read only when the row replaces the entry, and raises [KeyError] when
    the row has no [valor]. *)
Definition latest_t : Type := dict (K := option string) (V := string * json).

Fixpoint latest_loop (rows : list row) (latest : latest_t) : result latest_t :=
  match rows with
  | [] => Ok latest
  | r :: rows' =>
      if opt_eqb (produto r) (Some "cafe") then
        let ref_date := effective_date r in
        let newer :=
          match get opt_eqb (tipo r) latest with
          | None => true
          | Some e => str_gt ref_date (fst e)
          end in
        if newer then
          match valor r with
          | Some v => latest_loop rows' (set opt_eqb (tipo r) (ref_date, v) latest)
          | None => Raise KeyError
          end
        else latest_loop rows' latest
      else latest_loop rows' latest
  end.

(** The summary as loaded: [{}] unless the file exists and parses. *)
Definition load_summary (f : file) : json :=
  match f with
  | Json j => j
  | _ => JObj []
  end.

(** [summary.get("cafe", {})]: only a dict has [get]. *)
Definition get_cafe (summary : json) : result json :=
  match summary with
  | JObj o =>
      match get String.eqb "cafe" o with
      | Some c => Ok c
      | None => Ok (JObj [])
      end
  | _ => Raise AttributeError
  end.

(** [x[k] = v] with a [str] key: an assignment on a dict, [TypeError] on
    every other JSON value. *)
Definition setitem (x : json) (k : string) (v : json) : result json :=
  match x with
  | JObj o => Ok (JObj (set String.eqb k v o))
  | _ => Raise TypeError
  end.

(** The [date] chosen from [latest] (lines 200-206); [None] stands for
    Python's [None]. *)
Definition summary_date (latest : latest_t) : option string :=
  match get opt_eqb (Some "arabica") latest, get opt_eqb (Some "conillon") latest with
  | Some a, Some c => Some (if str_ge (fst a) (fst c) then fst a else fst c)
  | Some a, None => Some (fst a)
  | None, Some c => Some (fst c)
  | None, None => None
  end.

(** [update_price_summary]: the document written to [data/prices.json], or
    the exception that ends the call before anything is written. *)
Definition update_price_summary (rows : list row) (f : file) : result json :=
  bind (latest_loop rows []) (fun latest =>
  let summary := load_summary f in
  bind (get_cafe summary) (fun cafe =>
  bind (match summary_date latest with
        | Some date => if truthy date then setitem cafe "date" (JStr date) else Ok cafe
        | None => Ok cafe
        end) (fun cafe =>
  bind (match get opt_eqb (Some "arabica") latest with
        | Some a => setitem cafe "arabica" (snd a)
        | None => Ok cafe
        end) (fun cafe =>
  bind (match get opt_eqb (Some "conillon") latest with
        | Some c => setitem cafe "robusta" (snd c)
        | None => Ok cafe
        end) (fun cafe =>
  setitem summary "cafe" cafe))))).

(** Lines 219-226 of [main]: the loaded history, replaced by [[]] when it
    is not a list, then the rows of the two pages, then [dedup].
    [arabica] and [conillon] are what [parse_with_fallback] returned, [[]]
    for a page whose URL is not set. *)
Definition merged_rows (f : file) (arabica conillon : list row) : result (list row) :=
  let rows := load_history f in
  let rows := match rows with JList l => l | _ => [] end in
  bind (mapM as_row rows) (fun rows =>
  Ok (dedup (rows ++ arabica ++ conillon))).

(** [main]: the history it saves and the summary it writes. *)
Definition main (precos prices : file) (arabica conillon : list row)
  : result (list row * json) :=
  bind (merged_rows precos arabica conillon) (fun rows =>
  bind (update_price_summary rows prices) (fun summary =>
  Ok (rows, summary))).

(** *** Fetching and parsing the pages *)

(** The text [br_to_float] hands to [float]:
    [s.replace(".", "").replace(",", ".")]. *)
Definition br_text (s : string) : string :=
  PyStr.replace "," "." (PyStr.replace "." EmptyString s).

(** What one [requests.get] followed by [raise_for_status] comes to: the text
    of the page, or an exception. *)
Inductive attempt : Type :=
| Got (text : string)
| Failed (e : string).

(** How [fetch] ends: with the text, with the last exception, or, when no
    attempt was made, with [raise None], which is a [TypeError]. *)
Inductive fetched : Type :=
| Text (t : string)
| Raised (e : string)
| RaisedNone.

(** The loop of [fetch] from turn [i] with [n] turns left; [server i] is the
    outcome of the request of turn [i].  The second component lists the
    waits, each the factor [i+1] that multiplies [backoff]. *)
Fixpoint fetch_loop (server : nat -> attempt) (i n : nat) (last : option string)
  : fetched * list nat :=
  match n with
  | O => (match last with Some e => Raised e | None => RaisedNone end, [])
  | S n' =>
      match server i with
      | Got t => (Text t, [])
      | Failed e =>
          let '(r, waits) := fetch_loop server (S i) n' (Some e) in
          (r, S i :: waits)
      end
  end.

(** [fetch]: [range(retries)] is empty for [retries <= 0]. *)
Definition fetch (server : nat -> attempt) (retries : Z) : fetched * list nat :=
  fetch_loop server 0 (Z.to_nat retries) None.

(** [parse_hist_from_text], from the stripped non-empty [lines] on.  The
    regular expressions and the date parser are parameters: [ref_date line]
    is the ISO date found in a closing line ([None] when there is no
    [dd/mm/yyyy] or it does not parse), [currency line] the value of the
    first amount of a line, and [now k] the timestamp taken for the record
    built after [k] others. *)
Section ParseHist.
Variable ref_date : string -> option string.
Variable currency : string -> option number.
Variable now : nat -> string.

(** The [for j] loop: the first amount of the lines looked at. *)
Fixpoint first_valor (window : list string) : option number :=
  match window with
  | [] => None
  | l :: window' =>
      match currency l with
      | Some v => Some v
      | None => first_valor window'
      end
  end.

Definition closing (tipo fonte_url : string) (line : string) (v : number) (k : nat) : row :=
  mkRow (Some "cafe") (Some tipo) (Some (JNum v)) (ref_date line) (now k)
    [("moeda", JStr "BRL"); ("fonte_url", JStr fonte_url)].

(** The [while] loop; [k] counts the records built so far.  The lines
    [i+1 .. min(i+11, len(lines)) - 1] are the ten that follow. *)
Fixpoint parse_lines (lines : list string) (tipo fonte_url : string) (k : nat) : list row :=
  match lines with
  | [] => []
  | line :: rest =>
      if PyStr.startswith "Fechamento:" line then
        match first_valor (firstn 10 rest) with
        | Some v => closing tipo fonte_url line v k :: parse_lines rest tipo fonte_url (S k)
        | None => parse_lines rest tipo fonte_url k
        end
      else parse_lines rest tipo fonte_url k
  end.

Definition parse_hist_from_text (lines : list string) (tipo fonte_url : string) : list row :=
  parse_lines lines tipo fonte_url 0.

End ParseHist.

(** [parse_with_fallback], once [parse_page_direct] has returned [items].
    [key_set] is the truth value of [OPENAI_API_KEY]; [ai] is what the
    request of [extract_with_openai] and the decoding of its answer give,
    [None] when they raise.  Without the key [extract_with_openai] returns
    [[]] at once. *)
Definition extract_with_openai (key_set : bool) (ai : option (list row))
  : option (list row) :=
  if key_set then ai else Some [].

Definition parse_with_fallback (items : list row) (key_set : bool)
    (ai : option (list row)) : list row :=
  match items with
  | [] =>
      match extract_with_openai key_set ai with
      | Some l => l
      | None => items
      end
  | _ =>
      if (List.length items <=? 2)%nat && key_set then
        match extract_with_openai key_set ai with
        | Some ai_items => items ++ ai_items
        | None => items
        end
      else items
  end.

End Cepea.

(** ** scrape_prices.py *)

Module Scrape.

(** *** The market-open flag *)

(** A [datetime], field by field. *)
Record datetime : Type := mkDatetime {
  year : Z;
  month : Z;
  day : Z;
  hour : Z;
  minute : Z;
  second : Z
}.

(** [datetime.weekday()] as the standard library computes it: the
    proleptic Gregorian ordinal of the date, plus 6, modulo 7, so that
    Monday is 0 and Sunday is 6. *)
Definition is_leap (y : Z) : bool :=
  (y mod 4 =? 0)%Z && (negb (y mod 100 =? 0)%Z || (y mod 400 =? 0)%Z).

Definition days_before_year (y : Z) : Z :=
  let y := (y - 1)%Z in
  (y * 365 + y / 4 - y / 100 + y / 400)%Z.

Definition days_before_month_table : list Z :=
  [0; 31; 59; 90; 120; 151; 181; 212; 243; 273; 304; 334]%Z.

Definition days_before_month (y m : Z) : Z :=
  (nth (Z.to_nat (m - 1)) days_before_month_table 0
   + (if (2 <? m)%Z && is_leap y then 1 else 0))%Z.

Definition toordinal (d : datetime) : Z :=
  (days_before_year (year d) + days_before_month (year d) (month d) + day d)%Z.

Definition weekday (d : datetime) : Z := ((toordinal d + 6) mod 7)%Z.

(** [now.weekday() < 5 and 8 <= now.hour < 17]. *)
Definition is_market_open (now : datetime) : bool :=
  (weekday now <? 5)%Z && ((8 <=? hour now)%Z && (hour now <? 17)%Z).

(** The days of the week, and the one [weekday] numbers. *)
Inductive day_name : Type :=
| Monday | Tuesday | Wednesday | Thursday | Friday | Saturday | Sunday.

Definition day_of_week (d : datetime) : day_name :=
  match weekday d with
  | 0%Z => Monday
  | 1%Z => Tuesday
  | 2%Z => Wednesday
  | 3%Z => Thursday
  | 4%Z => Friday
  | 5%Z => Saturday
  | _ => Sunday
  end.

Definition is_business_day (n : day_name) : bool :=
  match n with
  | Saturday | Sunday => false
  | _ => true
  end.

(** *** The rolling history *)

(** An entry of [precos.json] as [update_history] reads it.
    [record["referente_a"]] is a key of [by_date] and the keys are sorted
    next to the [str] of the new entries, so an entry has a [str] there.
    [produto] is only compared with ["cafe"]: it is kept as it is, [None]
    when the key is absent.  [tipo] is [None] when the key is absent. *)
Record record : Type := mkRecord {
  referente_a : string;
  produto : option json;
  tipo : option string;
  others : list (string * json)
}.

(** An element of the loaded history seen as an entry.  [record.get]
    raises [AttributeError] on anything but a dict; a missing
    [referente_a] raises [KeyError] and one that is not a [str] a
    [TypeError] (unhashable, or not comparable with a [str]).  A [tipo]
    that is not a [str] is outside the model: [as_record] stops there with
    [TypeError], where the script only compares it with the other entries
    of its date.  The elements are read one after the other: on a list with
    several elements that are not entries, the exception is the one of the
    first. *)
Definition as_record (j : json) : result record :=
  match j with
  | JObj o =>
      bind (match get String.eqb "referente_a" o with
            | None => Raise KeyError
            | Some (JStr s) => Ok s
            | Some _ => Raise TypeError
            end) (fun d =>
      bind (match get String.eqb "tipo" o with
            | None => Ok None
            | Some (JStr s) => Ok (Some s)
            | Some _ => Raise TypeError
            end) (fun t =>
      Ok (mkRecord d (get String.eqb "produto" o) t
            (without ["referente_a"; "produto"; "tipo"] o))))
  | _ => Raise AttributeError
  end.

(** What [for record in history] goes through: the elements of a list,
    the keys of a dict, the characters of a [str]; the other JSON values
    are not iterable. *)
Definition iterate (j : json) : result (list json) :=
  match j with
  | JList l => Ok l
  | JObj o => Ok (map (fun kv => JStr (fst kv)) o)
  | JStr s => Ok (map (fun c => JStr (String c EmptyString)) (list_ascii_of_string s))
  | _ => Raise TypeError
  end.

(** Lines 194-201: the history is [[]] when the file is missing or
    [json.load] raises [JSONDecodeError]; no other exception is caught. *)
Definition load (f : file) : result json :=
  match f with
  | NoFile => Ok (JList [])
  | BadJson => Ok (JList [])
  | BadBytes => Raise UnicodeDecodeError
  | Json j => Ok j
  end.

Definition is_cafe (r : record) : bool :=
  match produto r with
  | Some (JStr s) => s =? "cafe"
  | _ => false
  end.

(** The two entries appended for the day. *)
Definition entry (referente_a iso_ts tipo : string) (price : number) : record :=
  mkRecord referente_a (Some (JStr "cafe")) (Some tipo)
    [("coletado_em", JStr iso_ts); ("valor", JNum price);
     ("unidade", JStr "saca"); ("moeda", JStr "BRL")].

(** Lines 203-227: the entries of the day are removed, the new ones
    appended. *)
Definition extend_history (history : list record) (arabica_price conilon_price : number)
    (referente_a iso_ts : string) : list record :=
  filter (fun r => negb ((Scrape.referente_a r =? referente_a) && is_cafe r)) history
  ++ [entry referente_a iso_ts "arabica" arabica_price;
      entry referente_a iso_ts "conillon" conilon_price].

(** [by_date.setdefault(record["referente_a"], []).append(record)]. *)
Definition group_step (by_date : dict (K := string) (V := list record)) (r : record) : dict :=
  match get String.eqb (Scrape.referente_a r) by_date with
  | Some l => set String.eqb (Scrape.referente_a r) (l ++ [r]) by_date
  | None => set String.eqb (Scrape.referente_a r) [r] by_date
  end.

Definition group_by_date (history : list record) : dict :=
  fold_left group_step history [].

(** [r.get("tipo", '')]. *)
Definition tipo_key (r : record) : string :=
  match tipo r with Some t => t | None => EmptyString end.

(** Lines 229-239: the ten greatest dates, greatest first, each with its
    entries sorted by [tipo]. *)
Definition prune (history : list record) : list record :=
  let by_date := group_by_date history in
  let dates_sorted := sorted_rev (fun d => d) str_lt (keys by_date) in
  let keep_dates := firstn 10 dates_sorted in
  flat_map (fun d =>
              sorted tipo_key str_lt
                (match get String.eqb d by_date with Some l => l | None => [] end))
           keep_dates.

(** [update_history], from the ISO date [referente_a] of line 191 and the
    timestamp [iso_ts] of line 207 on: the list written to [precos.json]. *)
Definition update_history (f : file) (arabica_price conilon_price : number)
    (referente_a iso_ts : string) : result (list record) :=
  bind (load f) (fun j =>
  bind (iterate j) (fun elements =>
  bind (mapM as_record elements) (fun history =>
  Ok (prune (extend_history history arabica_price conilon_price referente_a iso_ts))))).

(** *** The prices on the page *)

(** [main], line 292: the date kept for the history is the greater of the
    two [dd/mm/yyyy] texts in the order of [str]. *)
Definition trade_date (date_arabica date_conilon : string) : string :=
  if str_ge date_arabica date_conilon then date_arabica else date_conilon.

(** [format_brl], from the text [us] of [f"{value:,.2f}"] on: the prefix is
    put in front and the separators are swapped through ["X"]. *)
Definition format_brl (us : string) : string :=
  PyStr.replace "X" "."
    (PyStr.replace "." "," (PyStr.replace "," "X" ("R$ " ++ us))).

(** The text [parse_price] hands to [float], line 83, for a cell without
    surrounding blanks. *)
Definition price_text (cell : string) : string :=
  PyStr.replace "," "." (PyStr.replace "." EmptyString cell).

End Scrape.

(** ** Vocabulary of the properties *)

(** The lexicographic order on the keys of the final sort of [dedup]. *)
Definition tuple3_le (a b : string * string * string) : Prop :=
  let '(a1, a2, a3) := a in
  let '(b1, b2, b3) := b in
  str_lt a1 b1 = true \/
  (a1 = b1 /\ (str_lt a2 b2 = true \/ (a2 = b2 /\ str_le a3 b3 = true))).

(** [x] may stand before [y] in a list sorted by [key]: the key of [y] is not
    below the key of [x]. *)
Definition ascending {A K : Type} (key : A -> K) (lt : K -> K -> bool) (x y : A) : Prop :=
  lt (key y) (key x) = false.

(** [r] is the first element of [l] that is greatest in [m] among the
    elements selected by [sel]: the selected elements before it are strictly
    below, the selected elements after it are not above. *)
Definition first_max {A : Type} (sel : A -> Prop) (m : A -> string)
    (l : list A) (r : A) : Prop :=
  exists l1 l2,
    l = l1 ++ r :: l2 /\
    (forall x, In x l1 -> sel x -> str_lt (m x) (m r) = true) /\
    (forall x, In x l2 -> sel x -> str_le (m x) (m r) = true).

(** [r] is, among the rows with its key, the first one whose [coletado_em]
    is the greatest. *)
Definition first_greatest (rows : list Cepea.row) (r : Cepea.row) : Prop :=
  first_max (fun x => Cepea.key x = Cepea.key r) Cepea.coletado_em rows r.

(** [r] quotes [produto] "cafe" for the [tipo] [t]. *)
Definition quotes (t : option string) (r : Cepea.row) : Prop :=
  Cepea.produto r = Some "cafe" /\ Cepea.tipo r = t.

(** [r] is the row [update_price_summary] takes for [t]: the first of the
    rows quoting [t] whose effective date is the greatest. *)
Definition latest_row (t : option string) (rows : list Cepea.row) (r : Cepea.row) : Prop :=
  quotes t r /\ first_max (quotes t) Cepea.effective_date rows r.

(** The order in which [dedup] leaves the rows: ascending in the key of its
    final sort. *)
Definition persisted_order (x y : Cepea.row) : Prop :=
  tuple3_le (Cepea.sort_key x) (Cepea.sort_key y).

(** The distinct dates of a history, for each collector's notion of the date
    of an entry. *)
Definition cepea_dates (rows : list Cepea.row) : list string :=
  nodup string_dec (map Cepea.effective_date rows).

Definition scrape_dates (history : list Scrape.record) : list string :=
  nodup string_dec (map Scrape.referente_a history).

(** The distinct dates of a history that come after [d]. *)
Definition newer_dates (d : string) (history : list Scrape.record) : list string :=
  filter (str_lt d) (scrape_dates history).

(** The order in which [update_history] writes the entries: the later date
    first, and within one date ascending in [tipo]. *)
Definition written_order (x y : Scrape.record) : Prop :=
  str_lt (Scrape.referente_a y) (Scrape.referente_a x) = true \/
  (Scrape.referente_a x = Scrape.referente_a y /\
   str_le (Scrape.tipo_key x) (Scrape.tipo_key y) = true).

(** The entries of a date, the bucket [by_date[d]] and the dates in the
    order [update_history] sorts them. *)
Definition on_date (d : string) (r : Scrape.record) : bool := Scrape.referente_a r =? d.

Definition bucket (h : list Scrape.record) (d : string) : list Scrape.record :=
  match get String.eqb d (Scrape.group_by_date h) with Some l => l | None => [] end.

Definition dates_sorted (h : list Scrape.record) : list string :=
  sorted_rev (fun d => d) str_lt (keys (Scrape.group_by_date h)).

(** The value under [k] of a JSON object, and the object under "cafe" that
    [update_price_summary] works on ([{}] when the key is missing). *)
Definition member (k : string) (j : json) : option json :=
  match j with
  | JObj o => get String.eqb k o
  | _ => None
  end.

Definition cafe_of (j : json) : json :=
  match member "cafe" j with
  | Some c => c
  | None => JObj []
  end.

(** [x[k] = v] when there is a value to write. *)
Definition assign (x : json) (k : string) (v : option json) : result json :=
  match v with
  | Some v => Cepea.setitem x k v
  | None => Ok x
  end.

(** What [update_price_summary] writes under "cafe", key by key, from
    [latest]; [None] for a key it leaves as it was. *)
Definition date_value (latest : Cepea.latest_t) : option json :=
  match Cepea.summary_date latest with
  | Some date => if truthy date then Some (JStr date) else None
  | None => None
  end.

Definition written (latest : Cepea.latest_t) (k : string) : option json :=
  if k =? "robusta" then option_map snd (get opt_eqb (Some "conillon") latest)
  else if k =? "arabica" then option_map snd (get opt_eqb (Some "arabica") latest)
  else if k =? "date" then date_value latest
  else None.

(** The summary file can be merged into: it is missing or broken, or it
    holds an object whose "cafe", if any, is an object. *)
Definition writable (f : file) : Prop :=
  match Cepea.load_summary f with
  | JObj o =>
      match get String.eqb "cafe" o with
      | None => True
      | Some (JObj _) => True
      | Some _ => False
      end
  | _ => False
  end.

(** The order the history is said to be kept in: ascending in the effective
    date, then [tipo], then [coletado_em]. *)
Definition claimed_order (x y : Cepea.row) : Prop :=
  tuple3_le
    (Cepea.effective_date x, match Cepea.tipo x with Some t => t | None => EmptyString end,
     Cepea.coletado_em x)
    (Cepea.effective_date y, match Cepea.tipo y with Some t => t | None => EmptyString end,
     Cepea.coletado_em y).

(** The history file holds anything but a list. *)
Definition not_a_list (f : file) : Prop :=
  match f with
  | Json (JList _) => False
  | _ => True
  end.

(** The row [dedup] holds for the key [k] after a run of rows: the loop of
    [dedup] seen from one key. *)
Definition winner_step (k : Cepea.ident) (best : option Cepea.row) (r : Cepea.row)
  : option Cepea.row :=
  if Cepea.ident_eqb (Cepea.key r) k then
    match best with
    | None => Some r
    | Some prev =>
        if str_gt (Cepea.coletado_em r) (Cepea.coletado_em prev) then Some r else best
    end
  else best.

Definition winner (k : Cepea.ident) (rows : list Cepea.row) : option Cepea.row :=
  fold_left (winner_step k) rows None.

(** Some row quotes arabica or conillon. *)
Definition quoted (rows : list Cepea.row) : Prop :=
  exists r, In r rows /\ (quotes (Some "arabica") r \/ quotes (Some "conillon") r).

(** [keep_dates] of [update_history], and the entries of a history that are
    not "cafe" entries of the day. *)
Definition keep_dates (h : list Scrape.record) : list string :=
  firstn 10 (dates_sorted h).

Definition not_of_day (day : string) (r : Scrape.record) : bool :=
  negb ((Scrape.referente_a r =? day) && Scrape.is_cafe r).

(** The elements of key [k], and the order of the keys, for a sort on a
    [str] key. *)
Definition in_class {A : Type} (key : A -> string) (k : string) (x : A) : bool :=
  key x =? k.

Definition key_le {A : Type} (key : A -> string) (x y : A) : Prop :=
  str_le (key x) (key y) = true.

(** The identity of an observation, spelled out: the product, the variant
    and the effective date, which is the reference date of the row when it
    has one (a [str] that is not empty) and the first ten characters of its
    [coletado_em] otherwise. *)
Definition observation (r : Cepea.row) : option string * option string * string :=
  (Cepea.produto r, Cepea.tipo r,
   match Cepea.referente_a r with
   | Some d => if d =? EmptyString then substring 0 10 (Cepea.coletado_em r) else d
   | None => substring 0 10 (Cepea.coletado_em r)
   end).

(** The order of the specification, ascending in (effective date, variant,
    collected_at), and the order of the stored history, ascending in
    (reference date or the empty string, variant or the empty string,
    collected_at), both spelled out on the fields of the rows. *)
Definition spec_order (x y : Cepea.row) : Prop :=
  tuple3_le
    (snd (observation x), match Cepea.tipo x with Some t => t | None => EmptyString end,
     Cepea.coletado_em x)
    (snd (observation y), match Cepea.tipo y with Some t => t | None => EmptyString end,
     Cepea.coletado_em y).

Definition stored_order (x y : Cepea.row) : Prop :=
  tuple3_le
    (match Cepea.referente_a x with Some d => d | None => EmptyString end,
     match Cepea.tipo x with Some t => t | None => EmptyString end,
     Cepea.coletado_em x)
    (match Cepea.referente_a y with Some d => d | None => EmptyString end,
     match Cepea.tipo y with Some t => t | None => EmptyString end,
     Cepea.coletado_em y).

(** The row has a reference date. *)
Definition dated (r : Cepea.row) : Prop :=
  exists d, Cepea.referente_a r = Some d /\ d <> EmptyString.

(** ** Sample data *)

Definition quote (t : string) (d : option string) (c : string) (v : number) : Cepea.row :=
  Cepea.mkRow (Some "cafe") (Some t) (Some (JNum v)) d c [("moeda", JStr "BRL")].

(** Eleven trading days of arabica. *)
Definition eleven_days : list Cepea.row :=
  map (fun d => quote "arabica" (Some d) "2025-09-20T12:00:00+00:00" 227703%Z)
      ["2025-09-01"; "2025-09-02"; "2025-09-03"; "2025-09-04"; "2025-09-05";
       "2025-09-06"; "2025-09-07"; "2025-09-08"; "2025-09-09"; "2025-09-10";
       "2025-09-11"].

(** A dated row, and an undated one collected five days later. *)
Definition dated_row : Cepea.row :=
  quote "arabica" (Some "2025-09-05") "2025-09-05T21:00:00+00:00" 227000%Z.

Definition undated_row : Cepea.row :=
  quote "arabica" None "2025-09-10T21:00:00+00:00" 227703%Z.



(** Undated quotations: two of one day, one of the next. *)
Definition undated_morning : Cepea.row :=
  quote "conillon" None "2025-09-04T09:00:00+00:00" 140000%Z.

Definition undated_evening : Cepea.row :=
  quote "conillon" None "2025-09-04T21:00:00+00:00" 140150%Z.

Definition undated_next_day : Cepea.row :=
  quote "conillon" None "2025-09-05T09:00:00+00:00" 140300%Z.

(** Two histories that differ only in the date of the conillon quotation. *)
Definition arabica_fifth : Cepea.row :=
  quote "arabica" (Some "2025-09-05") "2025-09-05T21:00:00+00:00" 227703%Z.

Definition conillon_fourth : Cepea.row :=
  quote "conillon" (Some "2025-09-04") "2025-09-05T21:00:00+00:00" 140000%Z.

Definition conillon_third : Cepea.row :=
  quote "conillon" (Some "2025-09-03") "2025-09-05T21:00:00+00:00" 140000%Z.

(** One trading day scraped twice, and the two variants of one day. *)
Definition first_scrape : Cepea.row :=
  quote "arabica" (Some "2025-09-04") "2025-09-04T18:00:00+00:00" 227000%Z.

Definition second_scrape : Cepea.row :=
  quote "arabica" (Some "2025-09-04") "2025-09-04T21:00:00+00:00" 227703%Z.

Definition conillon_fifth : Cepea.row :=
  quote "conillon" (Some "2025-09-05") "2025-09-05T21:00:00+00:00" 140300%Z.

(** A summary left by an earlier run, with a key of another producer. *)
Definition previous_summary : json :=
  JObj [("fonte", JStr "noticiasagricolas");
        ("cafe", JObj [("date", JStr "2025-09-03"); ("arabica", JNum 226500%Z);
                       ("robusta", JNum 139900%Z)])].

(** A Wednesday and the Saturday after it. *)
Definition wednesday_at (h : Z) : Scrape.datetime := Scrape.mkDatetime 2025 9 3 h 0 0.
Definition saturday_at (h : Z) : Scrape.datetime := Scrape.mkDatetime 2025 9 6 h 0 0.

(** A server that fails twice and then answers, and one that never answers. *)
Definition flaky_server (i : nat) : Cepea.attempt :=
  if (i <? 2)%nat then Cepea.Failed "timeout" else Cepea.Got "<html>".

Definition dead_server (i : nat) : Cepea.attempt := Cepea.Failed "refused".

(** A reading of the lines of a page: a closing line carries its date, a line
    made of an amount its value. *)
Definition sample_ref_date (line : string) : option string :=
  if line =? "Fechamento: 04/09/2025" then Some "2025-09-04"
  else if line =? "Fechamento: 05/09/2025" then Some "2025-09-05"
  else None.

Definition sample_currency (line : string) : option number :=
  if line =? "2.277,03" then Some 227703%Z
  else if line =? "2.270,00" then Some 227000%Z
  else None.

Definition sample_now (k : nat) : string :=
  match k with
  | O => "2025-09-05T21:00:00.000001+00:00"
  | _ => "2025-09-05T21:00:00.000002+00:00"
  end.

(** An arabica quotation older than the date of [previous_summary]. *)
Definition arabica_second : Cepea.row :=
  quote "arabica" (Some "2025-09-02") "2025-09-02T21:00:00+00:00" 226000%Z.

(** Ten trading days, all after the 1st of September. *)
Definition ten_later_days : list Scrape.record :=
  map (fun d => Scrape.mkRecord d (Some (JStr "cafe")) (Some "arabica") [])
      ["2025-09-02"; "2025-09-03"; "2025-09-04"; "2025-09-05"; "2025-09-06";
       "2025-09-07"; "2025-09-08"; "2025-09-09"; "2025-09-10"; "2025-09-11"].

(** * Properties *)

(** ** The order on [str] *)

Section StrOrder.

Lemma str_lt_iff (a b : string) : str_lt a b = true <-> String_as_OT.lt a b.
Proof.
  unfold str_lt, String.ltb.
  rewrite <- String_as_OT.cmp_lt. unfold String_as_OT.cmp.
  destruct (String.compare a b); split; congruence.
Qed.

Lemma str_lt_irrefl (a : string) : str_lt a a = false.
Proof.
  destruct (str_lt a a) eqn:E; [|reflexivity].
  apply str_lt_iff in E. apply String_as_OT.lt_not_eq in E.
  exfalso. apply E. reflexivity.
Qed.

Lemma str_lt_trans (a b c : string) :
  str_lt a b = true -> str_lt b c = true -> str_lt a c = true.
Proof.
  rewrite !str_lt_iff. apply String_as_OT.lt_trans.
Qed.

Lemma str_lt_asym (a b : string) : str_lt a b = true -> str_lt b a = false.
Proof.
  intros H. destruct (str_lt b a) eqn:E; [|reflexivity].
  pose proof (str_lt_trans _ _ _ H E) as F.
  rewrite str_lt_irrefl in F. discriminate.
Qed.

(** [a <= b] is [not (b < a)]. *)
Lemma str_le_not_lt (a b : string) : str_le a b = negb (str_lt b a).
Proof.
  unfold str_le, str_lt, String.leb, String.ltb.
  rewrite (String.compare_antisym b a).
  destruct (String.compare a b); reflexivity.
Qed.

Lemma str_trichotomy (a b : string) :
  str_lt a b = true \/ a = b \/ str_lt b a = true.
Proof.
  unfold str_lt, String.ltb.
  destruct (String.compare a b) eqn:E.
  - apply String.compare_eq_iff in E. auto.
  - auto.
  - rewrite (String.compare_antisym b a), E. simpl. auto.
Qed.

Lemma str_le_iff (a b : string) : str_le a b = true <-> str_lt a b = true \/ a = b.
Proof.
  rewrite str_le_not_lt. split.
  - intros H. destruct (str_trichotomy a b) as [L | [L | L]]; auto.
    rewrite L in H. discriminate.
  - intros [L | L].
    + rewrite (str_lt_asym _ _ L). reflexivity.
    + subst. rewrite str_lt_irrefl. reflexivity.
Qed.

Lemma str_le_refl (a : string) : str_le a a = true.
Proof. apply str_le_iff. auto. Qed.

Lemma str_le_lt_trans (a b c : string) :
  str_le a b = true -> str_lt b c = true -> str_lt a c = true.
Proof.
  rewrite str_le_iff. intros [H | H] L.
  - eapply str_lt_trans; eauto.
  - subst. assumption.
Qed.

Lemma str_lt_le_trans (a b c : string) :
  str_lt a b = true -> str_le b c = true -> str_lt a c = true.
Proof.
  rewrite str_le_iff. intros L [H | H].
  - eapply str_lt_trans; eauto.
  - subst. assumption.
Qed.

Lemma str_le_trans (a b c : string) :
  str_le a b = true -> str_le b c = true -> str_le a c = true.
Proof.
  intros H1 H2. apply str_le_iff in H1. destruct H1 as [H1 | H1].
  - apply str_le_iff. left. eapply str_lt_le_trans; eauto.
  - subst. assumption.
Qed.

Lemma str_lt_le (a b : string) : str_lt a b = true -> str_le a b = true.
Proof. intros H. apply str_le_iff. auto. Qed.

Lemma str_lt_false_le (a b : string) : str_lt a b = false -> str_le b a = true.
Proof. intros H. rewrite str_le_not_lt, H. reflexivity. Qed.

Lemma str_le_antisym (a b : string) :
  str_le a b = true -> str_le b a = true -> a = b.
Proof. apply String.leb_antisym. Qed.

End StrOrder.

Section TupleOrder.

Lemma tuple3_lt_false_iff (a b : string * string * string) :
  tuple3_lt b a = false <-> tuple3_le a b.
Proof.
  destruct a as [[a1 a2] a3], b as [[b1 b2] b3]. unfold tuple3_lt, tuple3_le.
  destruct (String.eqb_spec b1 a1) as [E1 | E1]; cbn [negb].
  - subst. destruct (String.eqb_spec b2 a2) as [E2 | E2]; cbn [negb].
    + subst. split.
      * intros H. right. split; [reflexivity|]. right. split; [reflexivity|].
        now apply str_lt_false_le.
      * intros [H | [_ [H | [_ H]]]]; try (rewrite str_lt_irrefl in H; discriminate).
        rewrite str_le_not_lt in H. now destruct (str_lt b3 a3).
    + split.
      * intros H. right. split; [reflexivity|]. left.
        destruct (str_trichotomy a2 b2) as [L | [L | L]]; congruence.
      * intros [H | [_ [H | [H _]]]].
        -- rewrite str_lt_irrefl in H. discriminate.
        -- now apply str_lt_asym.
        -- congruence.
  - split.
    + intros H. left. destruct (str_trichotomy a1 b1) as [L | [L | L]]; congruence.
    + intros [H | [H _]]; [now apply str_lt_asym | congruence].
Qed.

Lemma tuple3_lt_asym (a b : string * string * string) :
  tuple3_lt a b = true -> tuple3_lt b a = false.
Proof.
  destruct a as [[a1 a2] a3], b as [[b1 b2] b3]. unfold tuple3_lt.
  rewrite (String.eqb_sym b1 a1), (String.eqb_sym b2 a2).
  destruct (a1 =? b1); cbn [negb]; [|apply str_lt_asym].
  destruct (a2 =? b2); cbn [negb]; apply str_lt_asym.
Qed.

Lemma tuple3_le_refl (a : string * string * string) : tuple3_le a a.
Proof.
  destruct a as [[a1 a2] a3]. simpl. right. split; [reflexivity|].
  right. split; [reflexivity | apply str_le_refl].
Qed.

Lemma tuple3_le_trans (a b c : string * string * string) :
  tuple3_le a b -> tuple3_le b c -> tuple3_le a c.
Proof.
  destruct a as [[a1 a2] a3], b as [[b1 b2] b3], c as [[c1 c2] c3]. simpl.
  intros [H1 | [E1 H1]] [H2 | [E2 H2]]; subst.
  - left. eapply str_lt_trans; eauto.
  - left. assumption.
  - left. assumption.
  - right. split; [reflexivity|].
    destruct H1 as [H1 | [E1 H1]], H2 as [H2 | [E2 H2]]; subst.
    + left. eapply str_lt_trans; eauto.
    + left. assumption.
    + left. assumption.
    + right. split; [reflexivity|]. eapply str_le_trans; eauto.
Qed.

End TupleOrder.

(** ** The stable sort *)

Section SortFacts.
Context {A K : Type}.
Variable key : A -> K.
Variable lt : K -> K -> bool.

Lemma insert_perm (x : A) (l : list A) : Permutation (insert key lt x l) (x :: l).
Proof.
  induction l as [|y l IH]; simpl.
  - apply Permutation_refl.
  - destruct (lt (key y) (key x)).
    + eapply perm_trans; [apply perm_skip, IH | apply perm_swap].
    + apply Permutation_refl.
Qed.

Lemma sorted_perm (l : list A) : Permutation (sorted key lt l) l.
Proof.
  induction l as [|x l IH]; simpl.
  - apply perm_nil.
  - eapply perm_trans; [apply insert_perm | apply perm_skip, IH].
Qed.

Lemma sorted_in (l : list A) (x : A) : In x (sorted key lt l) <-> In x l.
Proof.
  split; apply Permutation_in; [|apply Permutation_sym]; apply sorted_perm.
Qed.

Lemma insert_head (x : A) (l : list A) :
  HdRel (ascending key lt) x l -> insert key lt x l = x :: l.
Proof.
  destruct l as [|y l]; [reflexivity|]. simpl.
  intros H. apply HdRel_inv in H. unfold ascending in H. rewrite H. reflexivity.
Qed.

(** Sorting a list that is in order returns it. *)
Lemma sorted_id (l : list A) : Sorted (ascending key lt) l -> sorted key lt l = l.
Proof.
  induction l as [|x l IH]; [reflexivity|].
  intros H. apply Sorted_inv in H. destruct H as [Hs Hh].
  simpl. rewrite (IH Hs). apply insert_head, Hh.
Qed.

Hypothesis lt_asym : forall a b, lt a b = true -> lt b a = false.

Lemma insert_sorted (x : A) (l : list A) :
  Sorted (ascending key lt) l -> Sorted (ascending key lt) (insert key lt x l).
Proof.
  induction l as [|y l IH]; simpl; intros H.
  - repeat constructor.
  - destruct (lt (key y) (key x)) eqn:E.
    + apply Sorted_inv in H. destruct H as [Hs Hh].
      constructor; [apply IH, Hs|].
      destruct l as [|z l]; simpl.
      * constructor. unfold ascending. apply lt_asym, E.
      * destruct (lt (key z) (key x)).
        -- constructor. apply HdRel_inv in Hh. exact Hh.
        -- constructor. unfold ascending. apply lt_asym, E.
    + constructor; [exact H|]. constructor. exact E.
Qed.

Lemma sorted_sorted (l : list A) : Sorted (ascending key lt) (sorted key lt l).
Proof.
  induction l as [|x l IH]; simpl.
  - constructor.
  - apply insert_sorted, IH.
Qed.

End SortFacts.

Lemma sorted_rev_flip {A K : Type} (key : A -> K) (lt : K -> K -> bool) (l : list A) :
  sorted_rev key lt l = sorted key (fun a b => lt b a) l.
Proof.
  induction l as [|x l IH]; simpl; [reflexivity|].
  rewrite IH. generalize (sorted key (fun a b => lt b a) l). intros s.
  induction s as [|y s IHs]; simpl; [reflexivity|]. rewrite IHs. reflexivity.
Qed.

(** ** Dicts *)

Section DictFacts.
Context {K V : Type}.
Variable eqb : K -> K -> bool.
Hypothesis eqb_spec : forall a b, reflect (a = b) (eqb a b).

Lemma get_set_same (k : K) (v : V) (d : dict) : get eqb k (set eqb k v d) = Some v.
Proof.
  induction d as [|[k' v'] d IH]; simpl.
  - destruct (eqb_spec k k); congruence.
  - destruct (eqb_spec k k') as [E | E]; simpl.
    + destruct (eqb_spec k k); congruence.
    + destruct (eqb_spec k k'); congruence.
Qed.

Lemma get_set_other (k k' : K) (v : V) (d : dict) :
  k' <> k -> get eqb k' (set eqb k v d) = get eqb k' d.
Proof.
  intros N. induction d as [|[k0 v0] d IH]; simpl.
  - destruct (eqb_spec k' k); congruence.
  - destruct (eqb_spec k k0) as [E | E]; simpl.
    + subst. destruct (eqb_spec k' k0); congruence.
    + destruct (eqb_spec k' k0); congruence.
Qed.

Lemma get_none (k : K) (d : dict (V := V)) : get eqb k d = None <-> ~ In k (keys d).
Proof.
  induction d as [|[k' v'] d IH]; simpl.
  - tauto.
  - destruct (eqb_spec k k') as [E | E].
    + split; [discriminate | intros H; exfalso; apply H; auto].
    + rewrite IH. split; [intros H [F | F]; [congruence | tauto] | tauto].
Qed.

Lemma get_some_in (k : K) (v : V) (d : dict) : get eqb k d = Some v -> In (k, v) d.
Proof.
  induction d as [|[k' v'] d IH]; simpl; [discriminate|].
  destruct (eqb_spec k k') as [E | E].
  - intros H. left. congruence.
  - auto.
Qed.

Lemma in_get_some (k : K) (v : V) (d : dict) :
  NoDup (keys d) -> In (k, v) d -> get eqb k d = Some v.
Proof.
  induction d as [|[k' v'] d IH]; simpl; [tauto|].
  intros N H. inversion N as [|? ? Hn N']; subst.
  destruct (eqb_spec k k') as [E | E].
  - destruct H as [H | H]; [congruence|].
    subst. exfalso. apply Hn. apply (in_map fst) in H. exact H.
  - destruct H as [H | H]; [congruence | auto].
Qed.

Lemma set_new (k : K) (v : V) (d : dict) :
  get eqb k d = None -> set eqb k v d = d ++ [(k, v)].
Proof.
  induction d as [|[k' v'] d IH]; simpl; [reflexivity|].
  destruct (eqb_spec k k'); [discriminate|].
  intros H. rewrite (IH H). reflexivity.
Qed.

Lemma keys_set_old (k : K) (v v0 : V) (d : dict) :
  get eqb k d = Some v0 -> keys (set eqb k v d) = keys d.
Proof.
  unfold keys. induction d as [|[k' v'] d IH]; simpl; [discriminate|].
  destruct (eqb_spec k k') as [E | E]; simpl.
  - subst. reflexivity.
  - intros H. rewrite (IH H). reflexivity.
Qed.

Lemma keys_set_nodup (k : K) (v : V) (d : dict) :
  NoDup (keys d) -> NoDup (keys (set eqb k v d)).
Proof.
  intros N. destruct (get eqb k d) as [v0|] eqn:E.
  - rewrite (keys_set_old _ _ _ _ E). exact N.
  - rewrite (set_new _ _ _ E). unfold keys. rewrite map_app. simpl.
    apply NoDup_app; [exact N | repeat constructor; simpl; tauto |].
    intros x Hx [F | []]. subst. apply get_none in E. tauto.
Qed.

Lemma in_keys_set (k k' : K) (v : V) (d : dict) :
  In k' (keys (set eqb k v d)) <-> k' = k \/ In k' (keys d).
Proof.
  destruct (get eqb k d) as [v0|] eqn:E.
  - rewrite (keys_set_old _ _ _ _ E). split; [auto|].
    intros [F | F]; [|exact F]. subst.
    apply get_some_in in E. apply (in_map fst) in E. exact E.
  - rewrite (set_new _ _ _ E). unfold keys. rewrite map_app, in_app_iff. simpl.
    intuition congruence.
Qed.

End DictFacts.

(** ** The first of the greatest *)

Section FirstMax.
Context {A : Type}.
Variable sel : A -> Prop.
Variable m : A -> string.

Lemma fm_in (l : list A) (r : A) : first_max sel m l r -> In r l.
Proof.
  intros (l1 & l2 & E & _). subst. apply in_elt.
Qed.

Lemma fm_bound (l : list A) (r x : A) :
  first_max sel m l r -> In x l -> sel x -> str_le (m x) (m r) = true.
Proof.
  intros (l1 & l2 & E & H1 & H2) Hx Hk. subst.
  apply in_app_or in Hx. destruct Hx as [Hx | [Hx | Hx]].
  - apply str_lt_le. auto.
  - subst. apply str_le_refl.
  - auto.
Qed.

Lemma fm_snoc (l : list A) (r0 r : A) :
  first_max sel m l r0 ->
  (sel r -> str_le (m r) (m r0) = true) ->
  first_max sel m (l ++ [r]) r0.
Proof.
  intros (l1 & l2 & E & H1 & H2) Hr. subst.
  exists l1, (l2 ++ [r]). split; [|split].
  - rewrite <- app_assoc. reflexivity.
  - exact H1.
  - intros x Hx Hk. apply in_app_or in Hx. destruct Hx as [Hx | [Hx | []]].
    + auto.
    + subst. auto.
Qed.

Lemma fm_new (l : list A) (r : A) :
  (forall x, In x l -> sel x -> str_lt (m x) (m r) = true) ->
  first_max sel m (l ++ [r]) r.
Proof.
  intros H. exists l, []. split; [reflexivity|]. split; [exact H|].
  intros x [].
Qed.

End FirstMax.

(** ** [dedup]: the dict it builds *)

Section DedupFacts.
Import Cepea.

Lemma opt_eqb_spec (a b : option string) : reflect (a = b) (opt_eqb a b).
Proof.
  destruct a as [a|], b as [b|]; simpl; try (constructor; congruence).
  destruct (String.eqb_spec a b); constructor; congruence.
Qed.

Lemma ident_eqb_spec (a b : ident) : reflect (a = b) (ident_eqb a b).
Proof.
  destruct a as [[a1 a2] a3], b as [[b1 b2] b3]. unfold ident_eqb.
  destruct (opt_eqb_spec a1 b1); simpl; [|constructor; congruence].
  destruct (opt_eqb_spec a2 b2); simpl; [|constructor; congruence].
  destruct (String.eqb_spec a3 b3); constructor; congruence.
Qed.

Lemma fg_in (l : list row) (r : row) : first_greatest l r -> In r l.
Proof. exact (fm_in (fun x => key x = key r) coletado_em l r). Qed.

Lemma fg_bound (l : list row) (r x : row) :
  first_greatest l r -> In x l -> key x = key r ->
  str_le (coletado_em x) (coletado_em r) = true.
Proof. exact (fm_bound (fun x => key x = key r) coletado_em l r x). Qed.

Lemma fg_snoc (l : list row) (r0 r : row) :
  first_greatest l r0 ->
  (key r = key r0 -> str_le (coletado_em r) (coletado_em r0) = true) ->
  first_greatest (l ++ [r]) r0.
Proof. exact (fm_snoc (fun x => key x = key r0) coletado_em l r0 r). Qed.

Lemma fg_new (l : list row) (r : row) :
  (forall x, In x l -> key x = key r ->
             str_lt (coletado_em x) (coletado_em r) = true) ->
  first_greatest (l ++ [r]) r.
Proof. exact (fm_new (fun x => key x = key r) coletado_em l r). Qed.

Lemma split_compare {A : Type} (a a' b b' : list A) (x x' : A) :
  a ++ x :: b = a' ++ x' :: b' ->
  (a = a' /\ x = x' /\ b = b') \/ (In x a' /\ In x' b) \/ (In x' a /\ In x b').
Proof.
  revert a'. induction a as [|y a IH]; intros [|y' a'] E; simpl in E.
  - left. injection E as -> ->. auto.
  - right. left. injection E as -> ->. split; [left; reflexivity | apply in_elt].
  - right. right. injection E as -> <-. split; [left; reflexivity | apply in_elt].
  - injection E as -> E. destruct (IH _ E) as [(-> & -> & ->) | [[H1 H2] | [H1 H2]]].
    + left. auto.
    + right. left. simpl. auto.
    + right. right. simpl. auto.
Qed.

Lemma fg_unique (l : list row) (r r' : row) :
  first_greatest l r -> first_greatest l r' -> key r = key r' -> r = r'.
Proof.
  intros (a & b & E & H1 & H2) (a' & b' & E' & H1' & H2') Hk.
  rewrite E in E'. apply split_compare in E'.
  destruct E' as [(_ & E' & _) | [[Ha Hb] | [Ha Hb]]].
  - exact E'.
  - pose proof (H1' _ Ha Hk) as L. pose proof (H2 _ Hb (eq_sym Hk)) as L'.
    pose proof (str_le_lt_trans _ _ _ L' L) as F.
    rewrite str_lt_irrefl in F. discriminate.
  - pose proof (H1 _ Ha (eq_sym Hk)) as L. pose proof (H2' _ Hb Hk) as L'.
    pose proof (str_le_lt_trans _ _ _ L' L) as F.
    rewrite str_lt_irrefl in F. discriminate.
Qed.

Lemma dedup_dict_snoc (l : list row) (r : row) :
  dedup_dict (l ++ [r]) = dedup_step (dedup_dict l) r.
Proof.
  unfold dedup_dict. rewrite fold_left_app. reflexivity.
Qed.

(** What the loop of [dedup] maintains. *)
Lemma dedup_dict_inv (rows : list row) :
  NoDup (keys (dedup_dict rows)) /\
  (forall k r, get ident_eqb k (dedup_dict rows) = Some r ->
               key r = k /\ first_greatest rows r) /\
  (forall x, In x rows -> get ident_eqb (key x) (dedup_dict rows) <> None).
Proof.
  induction rows as [|r l IH] using rev_ind.
  - split; [constructor|]. split; [discriminate | intros x []].
  - destruct IH as (N & I2 & I3). rewrite dedup_dict_snoc.
    set (d := dedup_dict l) in *. unfold dedup_step.
    assert (Hset : NoDup (keys (set ident_eqb (key r) r d)) /\
              (forall x, In x (l ++ [r]) ->
                         get ident_eqb (key x) (set ident_eqb (key r) r d) <> None) /\
              (forall k r0, k <> key r ->
                 get ident_eqb k (set ident_eqb (key r) r d) = Some r0 ->
                 key r0 = k /\ first_greatest (l ++ [r]) r0)).
    { split; [apply (keys_set_nodup _ ident_eqb_spec), N|]. split.
      - intros x Hx. destruct (ident_eqb_spec (key x) (key r)) as [E | E].
        + rewrite E, (get_set_same _ ident_eqb_spec). discriminate.
        + rewrite (get_set_other _ ident_eqb_spec) by exact E.
          apply in_app_or in Hx. destruct Hx as [Hx | [Hx | []]]; [auto | congruence].
      - intros k r0 Hk G. rewrite (get_set_other _ ident_eqb_spec) in G by exact Hk.
        destruct (I2 _ _ G) as [E F]. split; [exact E|].
        apply fg_snoc; [exact F | congruence]. }
    destruct Hset as (N' & I3' & I2').
    destruct (get ident_eqb (key r) d) as [prev|] eqn:G.
    + destruct (I2 _ _ G) as [Ek Fg].
      destruct (str_gt (coletado_em r) (coletado_em prev)) eqn:C.
      * split; [exact N'|]. split; [|exact I3'].
        intros k r0 G0. destruct (ident_eqb_spec k (key r)) as [E | E]; [|auto].
        subst k. rewrite (get_set_same _ ident_eqb_spec) in G0. injection G0 as <-.
        split; [reflexivity|]. apply fg_new. intros x Hx Hk.
        eapply str_le_lt_trans; [|exact C].
        apply (fg_bound l); [exact Fg | exact Hx | congruence].
      * split; [exact N|]. split.
        -- intros k r0 G0. destruct (I2 _ _ G0) as [E F]. split; [exact E|].
           apply fg_snoc; [exact F|]. intros Hk.
           assert (r0 = prev) by congruence. subst r0.
           apply str_lt_false_le. exact C.
        -- intros x Hx. apply in_app_or in Hx. destruct Hx as [Hx | [Hx | []]].
           ++ auto.
           ++ subst x. rewrite G. discriminate.
    + split; [exact N'|]. split; [|exact I3'].
      intros k r0 G0. destruct (ident_eqb_spec k (key r)) as [E | E]; [|auto].
      subst k. rewrite (get_set_same _ ident_eqb_spec) in G0. injection G0 as <-.
      split; [reflexivity|]. apply fg_new. intros x Hx Hk.
      exfalso. apply (I3 x Hx). rewrite Hk. exact G.
Qed.

Lemma in_values_dedup (rows : list row) (r : row) :
  In r (values (dedup_dict rows)) <-> first_greatest rows r.
Proof.
  destruct (dedup_dict_inv rows) as (N & I2 & I3). split.
  - intros H. unfold values in H. apply in_map_iff in H.
    destruct H as ([k r'] & E & H). simpl in E. subst r'.
    apply (in_get_some _ ident_eqb_spec) in H; [|exact N].
    apply (I2 _ _ H).
  - intros H. pose proof (I3 _ (fg_in _ _ H)) as G.
    destruct (get ident_eqb (key r) (dedup_dict rows)) as [r'|] eqn:E; [|congruence].
    destruct (I2 _ _ E) as [Ek F].
    assert (r = r') by (apply (fg_unique rows); auto). subst r'.
    apply (get_some_in _ ident_eqb_spec) in E.
    unfold values. apply in_map_iff. exists (key r, r). auto.
Qed.

Lemma in_dedup (rows : list row) (r : row) :
  In r (dedup rows) <-> first_greatest rows r.
Proof.
  unfold dedup. rewrite sorted_in. apply in_values_dedup.
Qed.

Lemma dedup_keys_nodup (rows : list row) : NoDup (map key (dedup rows)).
Proof.
  destruct (dedup_dict_inv rows) as (N & I2 & _).
  assert (E : map key (values (dedup_dict rows)) = keys (dedup_dict rows)).
  { unfold values, keys. rewrite map_map. apply map_ext_in.
    intros [k r] H. simpl.
    apply (in_get_some _ ident_eqb_spec) in H; [|exact N].
    apply (I2 _ _ H). }
  unfold dedup. eapply Permutation_NoDup.
  - apply Permutation_map, Permutation_sym, sorted_perm.
  - rewrite E. exact N.
Qed.

(** Every key of the input has its survivor. *)
Lemma dedup_survivor (rows : list row) (r : row) :
  In r rows -> exists r', In r' (dedup rows) /\ key r' = key r.
Proof.
  intros H. destruct (dedup_dict_inv rows) as (N & I2 & I3).
  pose proof (I3 _ H) as G.
  destruct (get ident_eqb (key r) (dedup_dict rows)) as [r'|] eqn:E; [|congruence].
  exists r'. destruct (I2 _ _ E) as [Ek F]. split; [|exact Ek].
  apply in_dedup. exact F.
Qed.

End DedupFacts.

(** ** [dedup]: a history without duplicates *)

Section DedupIdentity.
Import Cepea.

Lemma Sorted_impl {A : Type} (R R' : A -> A -> Prop) (l : list A) :
  (forall x y, R x y -> R' x y) -> Sorted R l -> Sorted R' l.
Proof.
  intros HR. induction 1 as [|x l Hs IH Hh]; constructor; [exact IH|].
  destruct Hh; constructor; auto.
Qed.

Lemma dedup_fold_fresh (l : list row) (d : dict) :
  NoDup (keys d ++ map key l) ->
  fold_left dedup_step l d = d ++ map (fun r => (key r, r)) l.
Proof.
  revert d. induction l as [|r l IH]; intros d N; simpl.
  - rewrite app_nil_r. reflexivity.
  - assert (G : get ident_eqb (key r) d = None).
    { apply (get_none _ ident_eqb_spec). intros F.
      apply NoDup_remove_2 in N. apply N. apply in_or_app. auto. }
    unfold dedup_step at 2. rewrite G, (set_new _ ident_eqb_spec _ _ _ G).
    rewrite IH.
    + rewrite <- app_assoc. reflexivity.
    + unfold keys in *. rewrite map_app, <- app_assoc. exact N.
Qed.

Lemma dedup_dict_fresh (l : list row) :
  NoDup (map key l) -> values (dedup_dict l) = l.
Proof.
  intros N. unfold dedup_dict. rewrite dedup_fold_fresh by exact N.
  unfold values. simpl. rewrite map_map. simpl. apply map_id.
Qed.

Lemma persisted_order_ascending (x y : row) :
  ascending sort_key tuple3_lt x y <-> persisted_order x y.
Proof. apply tuple3_lt_false_iff. Qed.

Lemma dedup_sorted (rows : list row) : StronglySorted persisted_order (dedup rows).
Proof.
  apply Sorted_StronglySorted.
  - intros x y z. apply tuple3_le_trans.
  - apply (Sorted_impl (ascending sort_key tuple3_lt)).
    + intros x y. apply persisted_order_ascending.
    + apply sorted_sorted. apply tuple3_lt_asym.
Qed.

(** A history with one row per key, in the order of the final sort, is a
    fixed point of [dedup]. *)
Lemma dedup_fixed (H : list row) :
  NoDup (map key H) -> Sorted persisted_order H -> dedup H = H.
Proof.
  intros N S1. unfold dedup. rewrite dedup_dict_fresh by exact N.
  apply sorted_id. apply (Sorted_impl persisted_order); [|exact S1].
  intros x y. apply persisted_order_ascending.
Qed.

Lemma dedup_idempotent (rows : list row) : dedup (dedup rows) = dedup rows.
Proof.
  apply dedup_fixed.
  - apply dedup_keys_nodup.
  - apply StronglySorted_Sorted, dedup_sorted.
Qed.

End DedupIdentity.

(** ** [update_history]: grouping by date and pruning *)

Section PruneFacts.
Import Scrape.

Lemma group_snoc (h : list record) (r : record) :
  group_by_date (h ++ [r]) = group_step (group_by_date h) r.
Proof.
  unfold group_by_date. rewrite fold_left_app. reflexivity.
Qed.

(** The bucket of a date holds the entries of that date, in the order of
    the history. *)
Lemma group_get (h : list record) (d : string) :
  get String.eqb d (group_by_date h) =
  match filter (on_date d) h with
  | [] => None
  | l => Some l
  end.
Proof.
  induction h as [|r h IH] using rev_ind; [reflexivity|].
  rewrite group_snoc, filter_app. simpl. unfold group_step, on_date at 2.
  destruct (String.eqb_spec (referente_a r) d) as [E | E].
  - subst d. rewrite IH.
    destruct (filter (on_date (referente_a r)) h) as [|x l];
      rewrite (get_set_same _ String.eqb_spec); reflexivity.
  - rewrite app_nil_r, <- IH.
    destruct (get String.eqb (referente_a r) (group_by_date h));
      apply (get_set_other _ String.eqb_spec); congruence.
Qed.

Lemma group_keys_nodup (h : list record) : NoDup (keys (group_by_date h)).
Proof.
  induction h as [|r h IH] using rev_ind; [constructor|].
  rewrite group_snoc. unfold group_step.
  destruct (get String.eqb (referente_a r) (group_by_date h));
    apply (keys_set_nodup _ String.eqb_spec), IH.
Qed.

Lemma filter_nil_iff {A : Type} (f : A -> bool) (l : list A) :
  filter f l = [] <-> forall x, In x l -> f x = false.
Proof.
  induction l as [|y l IH]; simpl.
  - tauto.
  - destruct (f y) eqn:E.
    + split; [discriminate|]. intros H. specialize (H y (or_introl eq_refl)). congruence.
    + rewrite IH. split.
      * intros H x [F | F]; [subst; exact E | auto].
      * auto.
Qed.

Lemma group_keys_in (h : list record) (d : string) :
  In d (keys (group_by_date h)) <-> In d (map referente_a h).
Proof.
  split.
  - intros H. destruct (in_dec string_dec d (map referente_a h)) as [I | I]; [exact I|].
    exfalso. revert H. apply (get_none _ String.eqb_spec).
    rewrite group_get.
    replace (filter (on_date d) h) with (@nil record); [reflexivity|].
    symmetry. apply filter_nil_iff. intros x Hx. unfold on_date.
    apply String.eqb_neq. intros F. apply I. subst d. apply in_map, Hx.
  - intros H. apply in_map_iff in H. destruct H as (r & E & H).
    destruct (in_dec string_dec d (keys (group_by_date h))) as [I | I]; [exact I|].
    exfalso. apply (get_none _ String.eqb_spec) in I. rewrite group_get in I.
    destruct (filter (on_date d) h) eqn:F; [|discriminate].
    pose proof (proj1 (filter_nil_iff _ _) F r H) as G.
    unfold on_date in G. apply String.eqb_neq in G. congruence.
Qed.

Lemma bucket_filter (h : list record) (d : string) : bucket h d = filter (on_date d) h.
Proof.
  unfold bucket. rewrite group_get. destruct (filter (on_date d) h); reflexivity.
Qed.

Lemma prune_unfold (h : list record) :
  prune h =
  flat_map (fun d => sorted tipo_key str_lt (filter (on_date d) h))
           (firstn 10 (dates_sorted h)).
Proof.
  unfold prune. apply flat_map_ext. intros d.
  fold (bucket h d). rewrite bucket_filter. reflexivity.
Qed.

Lemma dates_sorted_perm (h : list record) :
  Permutation (dates_sorted h) (keys (group_by_date h)).
Proof.
  unfold dates_sorted. rewrite sorted_rev_flip. apply sorted_perm.
Qed.

Lemma dates_sorted_in (h : list record) (d : string) :
  In d (dates_sorted h) <-> In d (map referente_a h).
Proof.
  rewrite <- group_keys_in. split; apply Permutation_in;
    [|apply Permutation_sym]; apply dates_sorted_perm.
Qed.

Lemma dates_sorted_nodup (h : list record) : NoDup (dates_sorted h).
Proof.
  eapply Permutation_NoDup; [apply Permutation_sym, dates_sorted_perm|].
  apply group_keys_nodup.
Qed.

(** The dates come greatest first, without repetition. *)
Lemma dates_sorted_desc (h : list record) :
  StronglySorted (fun x y => str_lt y x = true) (dates_sorted h).
Proof.
  assert (S1 : StronglySorted (fun x y => str_le y x = true) (dates_sorted h)).
  { apply Sorted_StronglySorted.
    - intros x y z H1 H2. eapply str_le_trans; eauto.
    - unfold dates_sorted. rewrite sorted_rev_flip.
      apply (Sorted_impl (ascending (fun d => d) (fun a b => str_lt b a))).
      + intros x y H. unfold ascending in H. apply str_lt_false_le, H.
      + apply sorted_sorted. intros a b. apply str_lt_asym. }
  pose proof (dates_sorted_nodup h) as N.
  induction S1 as [|x l S1 IH F]; [constructor|].
  inversion N as [|? ? Hn N']; subst. constructor; [apply IH, N'|].
  rewrite Forall_forall in *. intros y Hy.
  pose proof (F y Hy) as L. apply str_le_iff in L.
  destruct L as [L | L]; [exact L|]. subst. tauto.
Qed.

Lemma firstn_desc (ds : list string) :
  StronglySorted (fun x y => str_lt y x = true) ds ->
  forall n d,
    In d (firstn n ds) <-> In d ds /\ List.length (filter (str_lt d) ds) < n.
Proof.
  induction 1 as [|a t S1 IH F]; intros n d.
  - rewrite firstn_nil. simpl. tauto.
  - rewrite Forall_forall in F.
    assert (Ha : filter (str_lt a) t = []).
    { apply filter_nil_iff. intros y Hy. apply str_lt_asym, F, Hy. }
    destruct n as [|n]; simpl; [split; [tauto | intros [_ H]; lia]|].
    rewrite IH. destruct (string_dec a d) as [E | E].
    + subst d. rewrite str_lt_irrefl, Ha. simpl. split; [intros _; split; [auto | lia] | auto].
    + split.
      * intros [H | [H1 H2]]; [congruence|]. split; [auto|].
        rewrite (F _ H1). simpl. lia.
      * intros [[H | H1] H2]; [congruence|]. right. split; [exact H1|].
        rewrite (F _ H1) in H2. simpl in H2. lia.
Qed.

Lemma filter_perm_length {A : Type} (f : A -> bool) (l l' : list A) :
  Permutation l l' -> List.length (filter f l) = List.length (filter f l').
Proof.
  induction 1 as [|x l l' P IH|x y l|l l' l'' P1 IH1 P2 IH2]; simpl.
  - reflexivity.
  - destruct (f x); simpl; congruence.
  - destruct (f x), (f y); reflexivity.
  - congruence.
Qed.

Lemma scrape_dates_perm (h : list record) :
  Permutation (dates_sorted h) (scrape_dates h).
Proof.
  apply NoDup_Permutation.
  - apply dates_sorted_nodup.
  - apply NoDup_nodup.
  - intros d. unfold scrape_dates. rewrite nodup_In. apply dates_sorted_in.
Qed.

Lemma in_keep_dates (h : list record) (d : string) :
  In d (firstn 10 (dates_sorted h)) <->
  In d (map referente_a h) /\ List.length (newer_dates d h) < 10.
Proof.
  rewrite (firstn_desc _ (dates_sorted_desc h)), dates_sorted_in.
  unfold newer_dates.
  rewrite (filter_perm_length (str_lt d) _ _ (scrape_dates_perm h)).
  reflexivity.
Qed.

Lemma in_prune_keep (h : list record) (r : record) :
  In r (prune h) <-> In r h /\ In (referente_a r) (firstn 10 (dates_sorted h)).
Proof.
  rewrite prune_unfold, in_flat_map. split.
  - intros (d & Hd & Hr). rewrite sorted_in, filter_In in Hr.
    destruct Hr as [Hr E]. unfold on_date in E. apply String.eqb_eq in E.
    subst d. auto.
  - intros [Hr Hd]. exists (referente_a r). split; [exact Hd|].
    rewrite sorted_in, filter_In. split; [exact Hr|].
    unfold on_date. apply String.eqb_refl.
Qed.

Lemma in_prune (h : list record) (r : record) :
  In r (prune h) <-> In r h /\ List.length (newer_dates (referente_a r) h) < 10.
Proof.
  rewrite in_prune_keep, in_keep_dates. split.
  - tauto.
  - intros [H1 H2]. split; [exact H1|]. split; [apply in_map, H1 | exact H2].
Qed.

Lemma prune_dates_count (h : list record) :
  List.length (scrape_dates (prune h)) = Nat.min 10 (List.length (scrape_dates h)).
Proof.
  rewrite <- (Permutation_length (scrape_dates_perm h)), <- length_firstn.
  apply Permutation_length, NoDup_Permutation.
  - apply NoDup_nodup.
  - pose proof (dates_sorted_nodup h) as N.
    rewrite <- (firstn_skipn 10 (dates_sorted h)) in N.
    apply NoDup_app_remove_r in N. exact N.
  - intros d. unfold scrape_dates. rewrite nodup_In, in_map_iff. split.
    + intros (r & E & H). apply in_prune_keep in H. subst d. tauto.
    + intros H. pose proof H as H'. apply in_keep_dates in H'.
      destruct H' as [H' _]. apply in_map_iff in H'. destruct H' as (r & E & Hr).
      exists r. split; [exact E|]. apply in_prune_keep. subst d. auto.
Qed.

End PruneFacts.

Section PruneOrder.
Import Scrape.

Lemma StronglySorted_app {A : Type} (R : A -> A -> Prop) (l1 l2 : list A) :
  StronglySorted R l1 -> StronglySorted R l2 ->
  (forall x y, In x l1 -> In y l2 -> R x y) ->
  StronglySorted R (l1 ++ l2).
Proof.
  induction 1 as [|x l1 S1 IH F]; intros S2 H; simpl; [exact S2|].
  constructor.
  - apply IH; [exact S2|]. intros a b Ha Hb. apply H; simpl; auto.
  - rewrite Forall_forall in *. intros y Hy. apply in_app_or in Hy.
    destruct Hy as [Hy | Hy]; [auto | apply H; simpl; auto].
Qed.

Lemma StronglySorted_firstn {A : Type} (R : A -> A -> Prop) (l : list A) (n : nat) :
  StronglySorted R l -> StronglySorted R (firstn n l).
Proof.
  intros S1. revert n. induction S1 as [|x l S1 IH F]; intros [|n]; simpl;
    try constructor.
  - apply IH.
  - rewrite Forall_forall in *. intros y Hy. apply F.
    rewrite <- (firstn_skipn n l). apply in_or_app. auto.
Qed.

(** The entries of one date, as they are written. *)
Lemma day_sorted (h : list record) (d : string) :
  StronglySorted written_order (sorted tipo_key str_lt (filter (on_date d) h)).
Proof.
  assert (S1 : StronglySorted (fun x y => str_le (tipo_key x) (tipo_key y) = true)
                 (sorted tipo_key str_lt (filter (on_date d) h))).
  { apply Sorted_StronglySorted.
    - intros x y z H1 H2. eapply str_le_trans; eauto.
    - apply (Sorted_impl (ascending tipo_key str_lt)).
      + intros x y H. apply str_lt_false_le, H.
      + apply sorted_sorted. intros a b. apply str_lt_asym. }
  assert (D : forall x, In x (sorted tipo_key str_lt (filter (on_date d) h)) ->
                        referente_a x = d).
  { intros x Hx. rewrite sorted_in, filter_In in Hx. apply String.eqb_eq, Hx. }
  induction S1 as [|x l S1 IH F]; [constructor|].
  constructor.
  - apply IH. intros y Hy. apply D. simpl. auto.
  - rewrite Forall_forall in *. intros y Hy. right. split.
    + rewrite (D x), (D y); simpl; auto.
    + apply F, Hy.
Qed.

Lemma days_sorted (h : list record) (ds : list string) :
  StronglySorted (fun x y => str_lt y x = true) ds ->
  StronglySorted written_order
    (flat_map (fun d => sorted tipo_key str_lt (filter (on_date d) h)) ds).
Proof.
  induction 1 as [|d ds S1 IH F]; simpl; [constructor|].
  apply StronglySorted_app; [apply day_sorted | exact IH|].
  intros x y Hx Hy. left.
  rewrite sorted_in, filter_In in Hx. destruct Hx as [_ Ex].
  apply String.eqb_eq in Ex.
  apply in_flat_map in Hy. destruct Hy as (d' & Hd' & Hy).
  rewrite sorted_in, filter_In in Hy. destruct Hy as [_ Ey].
  apply String.eqb_eq in Ey.
  rewrite Forall_forall in F. rewrite Ex, Ey. apply F, Hd'.
Qed.

Lemma prune_sorted (h : list record) : StronglySorted written_order (prune h).
Proof.
  rewrite prune_unfold. apply days_sorted, StronglySorted_firstn, dates_sorted_desc.
Qed.

(** What [update_history] writes is the pruning of the history it read,
    extended with the entries of the day. *)
Lemma update_history_prunes (f : file) (arabica_price conilon_price : number)
    (day iso_ts : string) (out : list record) :
  update_history f arabica_price conilon_price day iso_ts = Ok out ->
  exists history,
    out = prune (extend_history history arabica_price conilon_price day iso_ts).
Proof.
  unfold update_history. intros H.
  destruct (load f) as [j|]; [|discriminate]. cbn [bind] in H.
  destruct (iterate j) as [elements|]; [|discriminate]. cbn [bind] in H.
  destruct (mapM as_record elements) as [history|]; [|discriminate]. cbn [bind] in H.
  injection H as <-. exists history. reflexivity.
Qed.

Lemma update_history_bound (f : file) (arabica_price conilon_price : number)
    (day iso_ts : string) (out : list record) :
  update_history f arabica_price conilon_price day iso_ts = Ok out ->
  List.length (scrape_dates out) <= 10.
Proof.
  intros H. apply update_history_prunes in H. destruct H as [history ->].
  rewrite prune_dates_count. apply Nat.le_min_l.
Qed.

End PruneOrder.

(** ** [update_price_summary] *)

Section SummaryFacts.
Import Cepea.

Lemma fm_unique {A : Type} (sel sel' : A -> Prop) (m : A -> string)
    (l : list A) (r r' : A) :
  first_max sel m l r -> first_max sel' m l r' -> sel r' -> sel' r -> r = r'.
Proof.
  intros (a & b & E & H1 & H2) (a' & b' & E' & H1' & H2') Hs Hs'.
  rewrite E in E'. apply split_compare in E'.
  destruct E' as [(_ & E' & _) | [[Ha Hb] | [Ha Hb]]].
  - exact E'.
  - pose proof (H1' _ Ha Hs') as L. pose proof (H2 _ Hb Hs) as L'.
    pose proof (str_le_lt_trans _ _ _ L' L) as F.
    rewrite str_lt_irrefl in F. discriminate.
  - pose proof (H1 _ Ha Hs) as L. pose proof (H2' _ Hb Hs') as L'.
    pose proof (str_le_lt_trans _ _ _ L' L) as F.
    rewrite str_lt_irrefl in F. discriminate.
Qed.

Lemma latest_loop_snoc (l : list row) (r : row) (acc : latest_t) :
  latest_loop (l ++ [r]) acc = bind (latest_loop l acc) (fun a => latest_loop [r] a).
Proof.
  revert acc. induction l as [|x l IH]; intros acc; [reflexivity|].
  cbn [app latest_loop].
  destruct (opt_eqb (produto x) (Some "cafe")); [|apply IH].
  destruct (match get opt_eqb (tipo x) acc with
            | Some e => str_gt (effective_date x) (fst e)
            | None => true
            end); [|apply IH].
  destruct (valor x); [apply IH | reflexivity].
Qed.

Lemma is_cafe_iff (r : row) :
  opt_eqb (produto r) (Some "cafe") = true <-> produto r = Some "cafe".
Proof.
  destruct (opt_eqb_spec (produto r) (Some "cafe")); split; congruence.
Qed.

(** What the loop over the rows leaves in [latest]. *)
Lemma latest_loop_inv (rows : list row) (latest : latest_t) :
  latest_loop rows [] = Ok latest ->
  (forall t e, get opt_eqb t latest = Some e ->
     exists r, latest_row t rows r /\ fst e = effective_date r /\ valor r = Some (snd e)) /\
  (forall x, In x rows -> produto x = Some "cafe" ->
             get opt_eqb (tipo x) latest <> None).
Proof.
  revert latest. induction rows as [|r l IH] using rev_ind; intros latest H.
  - injection H as <-. split; [discriminate | intros x []].
  - rewrite latest_loop_snoc in H.
    destruct (latest_loop l []) as [a|] eqn:La; [|discriminate].
    destruct (IH a eq_refl) as [J1 J2]. cbn [bind latest_loop] in H.
    assert (Keep : forall t e, (quotes t r -> str_le (effective_date r) (fst e) = true) ->
              get opt_eqb t a = Some e ->
              exists r0, latest_row t (l ++ [r]) r0 /\ fst e = effective_date r0 /\
                         valor r0 = Some (snd e)).
    { intros t e Hq G. destruct (J1 _ _ G) as (r0 & [Q F] & E1 & E2).
      exists r0. split; [|auto]. split; [exact Q|].
      apply fm_snoc; [exact F|]. intros Hr. rewrite <- E1. auto. }
    destruct (opt_eqb (produto r) (Some "cafe")) eqn:C.
    + apply is_cafe_iff in C.
      destruct (match get opt_eqb (tipo r) a with
                | Some e => str_gt (effective_date r) (fst e)
                | None => true
                end) eqn:Nw.
      * destruct (valor r) as [v|] eqn:V; [|discriminate]. injection H as <-. split.
        -- intros t e G. destruct (opt_eqb_spec t (tipo r)) as [E | E].
           ++ subst t. rewrite (get_set_same _ opt_eqb_spec) in G. injection G as <-.
              exists r. simpl. split; [|auto]. split; [split; auto|].
              apply fm_new. intros x Hx [Qx Tx].
              destruct (get opt_eqb (tipo r) a) as [e|] eqn:G.
              ** destruct (J1 _ _ G) as (r0 & [Q F] & E1 & E2).
                 eapply str_le_lt_trans; [|exact Nw]. rewrite E1.
                 apply (fm_bound (quotes (tipo r)) effective_date l r0 x);
                   [exact F | exact Hx | split; auto].
              ** exfalso. apply (J2 x Hx Qx). rewrite Tx. exact G.
           ++ rewrite (get_set_other _ opt_eqb_spec) in G by exact E.
              apply Keep; [|exact G]. intros [_ Q]. congruence.
        -- intros x Hx Cx. destruct (opt_eqb_spec (tipo x) (tipo r)) as [E | E].
           ++ rewrite E, (get_set_same _ opt_eqb_spec). discriminate.
           ++ rewrite (get_set_other _ opt_eqb_spec) by exact E.
              apply in_app_or in Hx. destruct Hx as [Hx | [Hx | []]]; [auto | congruence].
      * injection H as <-. split.
        -- intros t e G. apply Keep; [|exact G]. intros [_ Q]. subst t.
           rewrite G in Nw. apply str_lt_false_le. exact Nw.
        -- intros x Hx Cx. apply in_app_or in Hx. destruct Hx as [Hx | [Hx | []]]; [auto|].
           subst x. destruct (get opt_eqb (tipo r) a); [discriminate | discriminate].
    + injection H as <-. split.
      * intros t e G. apply Keep; [|exact G]. intros [Q _].
        apply is_cafe_iff in Q. congruence.
      * intros x Hx Cx. apply in_app_or in Hx. destruct Hx as [Hx | [Hx | []]]; [auto|].
        subst x. apply is_cafe_iff in Cx. congruence.
Qed.

Lemma latest_loop_total (rows : list row) (acc : latest_t) :
  (forall r, In r rows -> valor r <> None) ->
  exists latest, latest_loop rows acc = Ok latest.
Proof.
  revert acc. induction rows as [|r l IH]; intros acc H; simpl.
  - eauto.
  - assert (Hl : forall x, In x l -> valor x <> None) by (intros x Hx; apply H; simpl; auto).
    destruct (opt_eqb (produto r) (Some "cafe")); [|apply IH, Hl].
    destruct (match get opt_eqb (tipo r) acc with
              | Some e => str_gt (effective_date r) (fst e)
              | None => true
              end); [|apply IH, Hl].
    destruct (valor r) eqn:V; [apply IH, Hl|].
    exfalso. apply (H r); simpl; auto.
Qed.

Lemma latest_row_unique (t : option string) (rows : list row) (r r' : row) :
  latest_row t rows r -> latest_row t rows r' -> r = r'.
Proof.
  intros [Q F] [Q' F']. apply (fm_unique _ _ _ _ _ _ F F' Q' Q).
Qed.

Lemma ups_unfold (rows : list row) (f : file) :
  update_price_summary rows f =
  bind (latest_loop rows []) (fun latest =>
  bind (get_cafe (load_summary f)) (fun cafe =>
  bind (assign cafe "date" (date_value latest)) (fun cafe =>
  bind (assign cafe "arabica"
          (option_map snd (get opt_eqb (Some "arabica") latest))) (fun cafe =>
  bind (assign cafe "robusta"
          (option_map snd (get opt_eqb (Some "conillon") latest))) (fun cafe =>
  setitem (load_summary f) "cafe" cafe))))).
Proof.
  unfold update_price_summary, date_value.
  destruct (latest_loop rows []) as [latest|]; [|reflexivity]. cbn [bind].
  destruct (get_cafe (load_summary f)) as [cafe|]; [|reflexivity]. cbn [bind].
  destruct (summary_date latest) as [date|]; [destruct (truthy date)|];
    destruct (get opt_eqb (Some "arabica") latest);
    destruct (get opt_eqb (Some "conillon") latest); reflexivity.
Qed.

Lemma assign_member (c c' : json) (k : string) (v : option json) :
  assign c k v = Ok c' ->
  forall k', member k' c' =
             match v with
             | Some x => if k' =? k then Some x else member k' c
             | None => member k' c
             end.
Proof.
  destruct v as [x|]; simpl.
  - destruct c; try discriminate. simpl. intros H k'. injection H as <-. simpl.
    destruct (String.eqb_spec k' k) as [E | E].
    + subst. apply (get_set_same _ String.eqb_spec).
    + apply (get_set_other _ String.eqb_spec), E.
  - intros H k'. injection H as <-. reflexivity.
Qed.

Lemma assign_obj (o : list (string * json)) (k : string) (v : option json) :
  exists o', assign (JObj o) k v = Ok (JObj o').
Proof.
  destruct v; simpl; eauto.
Qed.

(** The document written, read key by key against the one loaded. *)
Lemma ups_spec (rows : list row) (f : file) (new : json) :
  update_price_summary rows f = Ok new ->
  exists latest,
    latest_loop rows [] = Ok latest /\
    (forall k, k <> "cafe" -> member k new = member k (load_summary f)) /\
    (forall k, member k (cafe_of new) =
               match written latest k with
               | Some v => Some v
               | None => member k (cafe_of (load_summary f))
               end).
Proof.
  rewrite ups_unfold. intros H.
  destruct (latest_loop rows []) as [latest|]; [|discriminate]. cbn [bind] in H.
  exists latest. split; [reflexivity|].
  destruct (load_summary f) as [| | | | |o]; try discriminate.
  assert (C0 : get_cafe (JObj o) = Ok (cafe_of (JObj o))).
  { unfold cafe_of. simpl. destruct (get String.eqb "cafe" o); reflexivity. }
  rewrite C0 in H. cbn [bind] in H.
  destruct (assign (cafe_of (JObj o)) "date" (date_value latest)) as [c1|] eqn:A1;
    [|discriminate]. cbn [bind] in H.
  destruct (assign c1 "arabica" _) as [c2|] eqn:A2; [|discriminate]. cbn [bind] in H.
  destruct (assign c2 "robusta" _) as [c3|] eqn:A3; [|discriminate]. cbn [bind] in H.
  injection H as <-. split.
  - intros k Hk. simpl. apply (get_set_other _ String.eqb_spec), Hk.
  - assert (E : cafe_of (JObj (set String.eqb "cafe" c3 o)) = c3).
    { unfold cafe_of. simpl. rewrite (get_set_same _ String.eqb_spec). reflexivity. }
    rewrite E. intros k.
    rewrite (assign_member _ _ _ _ A3 k), (assign_member _ _ _ _ A2 k),
      (assign_member _ _ _ _ A1 k).
    unfold written.
    destruct (get opt_eqb (Some "conillon") latest);
      destruct (get opt_eqb (Some "arabica") latest);
      destruct (date_value latest); cbn [option_map];
      (destruct (String.eqb_spec k "robusta") as [-> | K]; [reflexivity|]);
      (destruct (String.eqb_spec k "arabica") as [-> | K']; [reflexivity|]);
      destruct (String.eqb_spec k "date"); reflexivity.
Qed.

Lemma ups_total (rows : list row) (f : file) :
  (forall r, In r rows -> valor r <> None) -> writable f ->
  exists new, update_price_summary rows f = Ok new.
Proof.
  intros Hv Hw. rewrite ups_unfold.
  destruct (latest_loop_total rows [] Hv) as [latest ->]. cbn [bind].
  unfold writable in Hw.
  destruct (load_summary f) as [| | | | |o]; try contradiction.
  assert (C0 : exists c, get_cafe (JObj o) = Ok (JObj c)).
  { simpl. destruct (get String.eqb "cafe" o) as [[| | | | |c]|];
      try contradiction; eauto. }
  destruct C0 as [c ->]. cbn [bind].
  destruct (assign_obj c "date" (date_value latest)) as [c1 ->]. cbn [bind].
  destruct (assign_obj c1 "arabica"
              (option_map snd (get opt_eqb (Some "arabica") latest))) as [c2 ->].
  cbn [bind].
  destruct (assign_obj c2 "robusta"
              (option_map snd (get opt_eqb (Some "conillon") latest))) as [c3 ->].
  cbn [bind]. simpl. eauto.
Qed.

End SummaryFacts.

(** ** Runs on the sample data *)

(** A later scrape of a day replaces the earlier one. *)
Example merge_replaces_older :
  Cepea.merged_rows (Json (JList [])) [first_scrape] []
    = Ok [first_scrape] /\
  Cepea.dedup ([first_scrape] ++ [second_scrape]) = [second_scrape].
Proof. split; reflexivity. Qed.

(** The two variants of one day do not collide. *)
Example merge_keeps_both_variants :
  Cepea.dedup ([] ++ [arabica_fifth; conillon_fifth]) = [arabica_fifth; conillon_fifth].
Proof. reflexivity. Qed.

(** A history file written by an earlier run is read back and merged. *)
Example merge_with_loaded_history :
  Cepea.merged_rows
    (Json (JList [JObj [("produto", JStr "cafe"); ("tipo", JStr "arabica");
                        ("moeda", JStr "BRL"); ("valor", JNum 227000%Z);
                        ("referente_a", JStr "2025-09-04");
                        ("coletado_em", JStr "2025-09-04T18:00:00+00:00")]]))
    [second_scrape] []
  = Ok [second_scrape].
Proof. reflexivity. Qed.

(** [update_history] on a first run, and on a history of ten earlier days. *)
Example update_history_first_run :
  Scrape.update_history NoFile 227703%Z 140000%Z "2025-09-05" "2025-09-05T21:00:00"
  = Ok [Scrape.entry "2025-09-05" "2025-09-05T21:00:00" "arabica" 227703%Z;
        Scrape.entry "2025-09-05" "2025-09-05T21:00:00" "conillon" 140000%Z].
Proof. reflexivity. Qed.

Example update_history_drops_oldest :
  let day d := JObj [("referente_a", JStr d); ("produto", JStr "cafe");
                     ("tipo", JStr "arabica")] in
  option_map (map Scrape.referente_a)
    (match Scrape.update_history
             (Json (JList (map day ["2025-09-01"; "2025-09-02"; "2025-09-03";
                                    "2025-09-04"; "2025-09-05"; "2025-09-06";
                                    "2025-09-07"; "2025-09-08"; "2025-09-09";
                                    "2025-09-10"])))
             227703%Z 140000%Z "2025-09-11" "2025-09-11T21:00:00" with
     | Ok out => Some out
     | Raise _ => None
     end)
  = Some ["2025-09-11"; "2025-09-11"; "2025-09-10"; "2025-09-09"; "2025-09-08";
          "2025-09-07"; "2025-09-06"; "2025-09-05"; "2025-09-04"; "2025-09-03";
          "2025-09-02"].
Proof. reflexivity. Qed.

(** * The claims *)

Section MergeClaims.
Import Cepea.

Lemma nodup_map_inj {A B : Type} (f : A -> B) (l : list A) (x y : A) :
  NoDup (map f l) -> In x l -> In y l -> f x = f y -> x = y.
Proof.
  induction l as [|a l IH]; simpl; [tauto|].
  intros N Hx Hy E. inversion N as [|? ? Hn N']; subst.
  destruct Hx as [Hx | Hx], Hy as [Hy | Hy]; subst.
  - reflexivity.
  - exfalso. apply Hn. rewrite E. apply in_map, Hy.
  - exfalso. apply Hn. rewrite <- E. apply in_map, Hx.
  - auto.
Qed.

Lemma dedup_incl (rows : list row) (r : row) : In r (dedup rows) -> In r rows.
Proof.
  intros H. apply in_dedup in H. apply fg_in in H. exact H.
Qed.

Lemma dedup_dates (rows : list row) (d : string) :
  In d (cepea_dates (dedup rows)) <-> In d (cepea_dates rows).
Proof.
  unfold cepea_dates. rewrite !nodup_In, !in_map_iff. split.
  - intros (r & E & H). exists r. split; [exact E | apply dedup_incl, H].
  - intros (r & E & H). destruct (dedup_survivor rows r H) as (r' & H' & K).
    exists r'. split; [|exact H']. unfold key in K. congruence.
Qed.

Lemma observation_key (r : row) : observation r = key r.
Proof.
  unfold observation, key, effective_date, or_str, truthy, slice10.
  destruct (referente_a r) as [d|]; [|reflexivity].
  destruct (d =? EmptyString); reflexivity.
Qed.

Lemma stored_order_persisted (x y : row) : stored_order x y <-> persisted_order x y.
Proof.
  assert (E : forall r, (match referente_a r with Some d => d | None => EmptyString end)
                        = or_str (referente_a r) EmptyString).
  { intros r. unfold or_str, truthy. destruct (referente_a r) as [d|]; [|reflexivity].
    destruct (String.eqb_spec d EmptyString) as [-> | N]; reflexivity. }
  unfold stored_order, persisted_order, sort_key. rewrite !E. reflexivity.
Qed.

Lemma dated_orders (x y : row) : dated x -> dated y -> spec_order x y -> stored_order x y.
Proof.
  intros (dx & Ex & Nx) (dy & Ey & Ny). unfold spec_order, stored_order, observation.
  rewrite Ex, Ey. apply String.eqb_neq in Nx, Ny. simpl. rewrite Nx, Ny. tauto.
Qed.

Lemma Sorted_impl_in {A : Type} (R R' : A -> A -> Prop) (l : list A) :
  (forall x y, In x l -> In y l -> R x y -> R' x y) -> Sorted R l -> Sorted R' l.
Proof.
  intros HR S1. induction S1 as [|x l S1 IH Hh]; constructor.
  - apply IH. intros a b Ha Hb. apply HR; simpl; auto.
  - destruct Hh as [|y l' Hxy]; constructor. apply HR; simpl; auto.
Qed.

End MergeClaims.

(** C1, as the code has it.  [update_history] keeps the entries of the ten
    greatest distinct [referente_a] of the history it extended: the number of
    distinct dates it writes is the smaller of ten and the number it found,
    and an entry is written exactly when fewer than ten distinct dates of the
    history come after its own, so that a date goes or stays with all its
    entries.  [dedup] keeps every effective date of its input: it has no
    retention window. *)
Theorem retention_window (history : list Scrape.record) (rows : list Cepea.row) :
  List.length (scrape_dates (Scrape.prune history))
    = Nat.min 10 (List.length (scrape_dates history)) /\
  (forall r, In r (Scrape.prune history) <->
             In r history /\
             List.length (newer_dates (Scrape.referente_a r) history) < 10) /\
  (forall d, In d (cepea_dates (Cepea.dedup rows)) <-> In d (cepea_dates rows)).
Proof.
  split; [apply prune_dates_count|]. split.
  - intros r. apply in_prune.
  - intros d. apply dedup_dates.
Qed.

(** C1 as stated fails on [dedup]: a history of eleven trading days comes out
    of the merge with its eleven dates. *)
Lemma retention_counterexample :
  ~ List.length (cepea_dates (Cepea.dedup (eleven_days ++ []))) <= 10.
Proof.
  vm_compute. lia.
Qed.

(** C2.  [dedup] returns one row per observation, the observation of a row
    being its [produto], its [tipo] and its reference date or, without one,
    the first ten characters of its [coletado_em]: the observations of the
    result are pairwise distinct, every row of the result is a row of the
    input, and every row of the input has in the result the row of its
    observation, whose [coletado_em] is the greatest of that observation in
    the input. *)
Theorem dedup_one_per_key (rows : list Cepea.row) :
  NoDup (map observation (Cepea.dedup rows)) /\
  (forall r, In r (Cepea.dedup rows) -> In r rows) /\
  (forall r, In r rows ->
     exists r', In r' (Cepea.dedup rows) /\ observation r' = observation r /\
       forall x, In x rows -> observation x = observation r ->
                 str_le (Cepea.coletado_em x) (Cepea.coletado_em r') = true).
Proof.
  split; [|split; [apply dedup_incl|]].
  - rewrite (map_ext observation Cepea.key observation_key). apply dedup_keys_nodup.
  - intros r H. destruct (dedup_survivor rows r H) as (r' & H' & K).
    exists r'. split; [exact H'|]. rewrite !observation_key. split; [exact K|].
    intros x Hx Kx. rewrite !observation_key in Kx. apply in_dedup in H'.
    apply (fg_bound rows); [exact H' | exact Hx | congruence].
Qed.

(** C3, as the code has it.  A history with one row per observation comes
    back unchanged from a merge with no candidate when it is in the order of
    the stored history, ascending in (reference date or the empty string,
    variant, collected_at), and so when it is in the order of the
    specification and every row has a reference date. *)
Theorem merge_nothing_new (H : list Cepea.row) :
  NoDup (map observation H) ->
  Sorted stored_order H \/
  (Sorted spec_order H /\ forall r, In r H -> dated r) ->
  Cepea.dedup (H ++ []) = H.
Proof.
  intros N S1. rewrite app_nil_r. apply dedup_fixed.
  - rewrite <- (map_ext observation Cepea.key observation_key). exact N.
  - apply (Sorted_impl stored_order); [intros x y; apply stored_order_persisted|].
    destruct S1 as [S1 | [S1 D]]; [exact S1|].
    apply (Sorted_impl_in spec_order); [|exact S1].
    intros x y Hx Hy. apply dated_orders; auto.
Qed.

Lemma merge_nothing_new_witness :
  (NoDup (map observation [undated_row; dated_row]) /\
   Sorted stored_order [undated_row; dated_row] /\
   Cepea.dedup ([undated_row; dated_row] ++ []) = [undated_row; dated_row]) /\
  (NoDup (map observation [first_scrape; arabica_fifth]) /\
   Sorted spec_order [first_scrape; arabica_fifth] /\
   (forall r, In r [first_scrape; arabica_fifth] -> dated r) /\
   Cepea.dedup ([first_scrape; arabica_fifth] ++ []) = [first_scrape; arabica_fifth]).
Proof.
  assert (S1 : Sorted stored_order [undated_row; dated_row]).
  { apply Sorted_cons; [apply Sorted_cons; constructor|].
    apply HdRel_cons. apply tuple3_lt_false_iff. reflexivity. }
  assert (N1 : NoDup (map observation [undated_row; dated_row])).
  { apply NoDup_cons; [simpl; intuition discriminate|].
    apply NoDup_cons; [simpl; tauto | apply NoDup_nil]. }
  assert (S2 : Sorted spec_order [first_scrape; arabica_fifth]).
  { apply Sorted_cons; [apply Sorted_cons; constructor|].
    apply HdRel_cons. apply tuple3_lt_false_iff. reflexivity. }
  assert (N2 : NoDup (map observation [first_scrape; arabica_fifth])).
  { apply NoDup_cons; [simpl; intuition discriminate|].
    apply NoDup_cons; [simpl; tauto | apply NoDup_nil]. }
  assert (D2 : forall r, In r [first_scrape; arabica_fifth] -> dated r).
  { intros r [<- | [<- | []]]; eexists; (split; [reflexivity | discriminate]). }
  split.
  - split; [exact N1|]. split; [exact S1|].
    exact (merge_nothing_new [undated_row; dated_row] N1 (or_introl S1)).
  - split; [exact N2|]. split; [exact S2|]. split; [exact D2|].
    exact (merge_nothing_new [first_scrape; arabica_fifth] N2 (or_intror (conj S2 D2))).
Defined.

(** C3 as stated fails: the row dated the 5th followed by the undated row
    collected on the 10th is a history with one row per observation, two
    dates, in the order of the specification; merged with no candidate it
    comes back with the undated row first. *)
Lemma merge_nothing_new_counterexample :
  NoDup (map observation [dated_row; undated_row]) /\
  List.length (cepea_dates [dated_row; undated_row]) <= 10 /\
  Sorted spec_order [dated_row; undated_row] /\
  Cepea.dedup ([dated_row; undated_row] ++ []) = [undated_row; dated_row] /\
  Cepea.dedup ([dated_row; undated_row] ++ []) <> [dated_row; undated_row].
Proof.
  split; [|split; [|split; [|split]]].
  - apply NoDup_cons; [simpl; intuition discriminate|].
    apply NoDup_cons; [simpl; tauto | apply NoDup_nil].
  - vm_compute. auto with arith.
  - apply Sorted_cons; [apply Sorted_cons; constructor|].
    apply HdRel_cons. apply tuple3_lt_false_iff. reflexivity.
  - reflexivity.
  - discriminate.
Qed.

(** C4, as the code has it.  [dedup] returns its rows in ascending order of
    [(referente_a or '', tipo or '', coletado_em)]: a row without reference
    date sorts under the empty string, not under the date of its
    [coletado_em].  [update_history] writes the later date first and, within
    one date, the entries in ascending order of [tipo]. *)
Theorem history_order (rows : list Cepea.row) (history : list Scrape.record) :
  StronglySorted persisted_order (Cepea.dedup rows) /\
  StronglySorted written_order (Scrape.prune history).
Proof.
  split; [apply dedup_sorted | apply prune_sorted].
Qed.

(** C4 as stated fails: the undated row collected on the 10th comes out of
    the merge before the row dated the 5th. *)
Lemma history_order_counterexample :
  Cepea.dedup ([dated_row] ++ [undated_row]) = [undated_row; dated_row] /\
  ~ Sorted claimed_order (Cepea.dedup ([dated_row] ++ [undated_row])).
Proof.
  assert (E : Cepea.dedup ([dated_row] ++ [undated_row]) = [undated_row; dated_row])
    by reflexivity.
  split; [exact E|]. rewrite E.
  intros H. apply Sorted_inv in H. destruct H as [_ H]. apply HdRel_inv in H.
  unfold claimed_order in H. apply tuple3_lt_false_iff in H.
  vm_compute in H. discriminate H.
Qed.

Section UndatedRows.
Import Cepea.

Lemma dedup_pair_same_key (r1 r2 : row) :
  key r1 = key r2 -> List.length (dedup [r1; r2]) = 1.
Proof.
  intros E. unfold dedup, dedup_dict. cbn [fold_left].
  unfold dedup_step at 2. cbn [get set].
  unfold dedup_step. cbn [get]. rewrite <- E.
  destruct (ident_eqb_spec (key r1) (key r1)) as [_ | F]; [|congruence].
  destruct (str_gt (coletado_em r2) (coletado_em r1)); cbn [set].
  - destruct (ident_eqb_spec (key r1) (key r1)) as [_ | F]; [|congruence].
    reflexivity.
  - reflexivity.
Qed.

Lemma dedup_pair_other_key (r1 r2 : row) :
  key r1 <> key r2 -> In r1 (dedup [r1; r2]) /\ In r2 (dedup [r1; r2]).
Proof.
  intros N. split; apply in_dedup.
  - exists [], [r2]. split; [reflexivity|]. split; [intros x []|].
    intros x [Hx | []] K. subst. congruence.
  - exists [r1], []. split; [reflexivity|]. split; [|intros x []].
    intros x [Hx | []] K. subst. congruence.
Qed.

End UndatedRows.

(** C5.  A row without reference date has the first ten characters of its
    [coletado_em] as its effective date.  Two such rows of one [produto] and
    [tipo] have the same key exactly when those ten characters agree: merged,
    the two leave one row when collected on the same day and both stay
    when collected on different days. *)
Theorem undated_rows_by_day (r1 r2 : Cepea.row) :
  Cepea.referente_a r1 = None -> Cepea.referente_a r2 = None ->
  Cepea.produto r1 = Cepea.produto r2 -> Cepea.tipo r1 = Cepea.tipo r2 ->
  Cepea.effective_date r1 = slice10 (Cepea.coletado_em r1) /\
  Cepea.effective_date r2 = slice10 (Cepea.coletado_em r2) /\
  (slice10 (Cepea.coletado_em r1) = slice10 (Cepea.coletado_em r2) ->
     Cepea.key r1 = Cepea.key r2 /\
     List.length (Cepea.dedup ([r1] ++ [r2])) = 1) /\
  (slice10 (Cepea.coletado_em r1) <> slice10 (Cepea.coletado_em r2) ->
     Cepea.key r1 <> Cepea.key r2 /\
     In r1 (Cepea.dedup ([r1] ++ [r2])) /\ In r2 (Cepea.dedup ([r1] ++ [r2]))).
Proof.
  intros D1 D2 P T.
  assert (E1 : Cepea.effective_date r1 = slice10 (Cepea.coletado_em r1)).
  { unfold Cepea.effective_date. rewrite D1. reflexivity. }
  assert (E2 : Cepea.effective_date r2 = slice10 (Cepea.coletado_em r2)).
  { unfold Cepea.effective_date. rewrite D2. reflexivity. }
  split; [exact E1|]. split; [exact E2|]. split.
  - intros S1.
    assert (K : Cepea.key r1 = Cepea.key r2).
    { unfold Cepea.key. rewrite P, T, E1, E2, S1. reflexivity. }
    split; [exact K | apply dedup_pair_same_key, K].
  - intros S1.
    assert (K : Cepea.key r1 <> Cepea.key r2).
    { unfold Cepea.key. rewrite E1, E2. intros F. injection F as _ _ F. auto. }
    split; [exact K | apply dedup_pair_other_key, K].
Qed.

Lemma undated_rows_by_day_witness :
  (Cepea.referente_a undated_morning = None /\
   Cepea.referente_a undated_evening = None /\
   Cepea.produto undated_morning = Cepea.produto undated_evening /\
   Cepea.tipo undated_morning = Cepea.tipo undated_evening) /\
  List.length (Cepea.dedup ([undated_morning] ++ [undated_evening])) = 1 /\
  In undated_evening (Cepea.dedup ([undated_evening] ++ [undated_next_day])) /\
  In undated_next_day (Cepea.dedup ([undated_evening] ++ [undated_next_day])).
Proof.
  split; [repeat split|]. split.
  - apply (undated_rows_by_day undated_morning undated_evening
             eq_refl eq_refl eq_refl eq_refl).
    reflexivity.
  - apply (undated_rows_by_day undated_evening undated_next_day
             eq_refl eq_refl eq_refl eq_refl).
    discriminate.
Defined.



Section SummaryClaims.
Import Cepea.

Lemma latest_absent (rows : list row) (latest : latest_t) (t : option string) :
  latest_loop rows [] = Ok latest ->
  (forall r, In r rows -> ~ quotes t r) ->
  get opt_eqb t latest = None.
Proof.
  intros L H. destruct (latest_loop_inv rows latest L) as [J1 _].
  destruct (get opt_eqb t latest) as [e|] eqn:G; [|reflexivity].
  destruct (J1 _ _ G) as (r & [Q F] & _). exfalso.
  apply (H r); [|exact Q]. apply (fm_in _ _ _ _ F).
Qed.

Lemma latest_present (rows : list row) (latest : latest_t) (t : option string) :
  latest_loop rows [] = Ok latest ->
  (exists x, In x rows /\ quotes t x) ->
  exists e r, get opt_eqb t latest = Some e /\ latest_row t rows r /\
              fst e = effective_date r /\ valor r = Some (snd e).
Proof.
  intros L (x & Hx & [Qp Qt]). destruct (latest_loop_inv rows latest L) as [J1 J2].
  pose proof (J2 x Hx Qp) as G. rewrite Qt in G.
  destruct (get opt_eqb t latest) as [e|] eqn:Ge; [|congruence].
  destruct (J1 _ _ Ge) as (r & Lr & E1 & E2). exists e, r. auto.
Qed.

Lemma written_elsewhere (latest : latest_t) (k : string) :
  k <> "date" -> k <> "arabica" -> k <> "robusta" -> written latest k = None.
Proof.
  intros N1 N2 N3. unfold written.
  apply String.eqb_neq in N1, N2, N3. rewrite N1, N2, N3. reflexivity.
Qed.

(** With no quotation of either variant the "cafe" object is written back
    as it was loaded. *)
Lemma ups_idle (rows : list row) (f : file) (new : json) :
  update_price_summary rows f = Ok new ->
  (forall r, In r rows -> ~ quotes (Some "arabica") r) ->
  (forall r, In r rows -> ~ quotes (Some "conillon") r) ->
  cafe_of new = cafe_of (load_summary f).
Proof.
  intros H Ha Hc. rewrite ups_unfold in H.
  destruct (latest_loop rows []) as [latest|] eqn:L; [|discriminate]. cbn [bind] in H.
  unfold date_value, summary_date in H.
  rewrite (latest_absent rows latest _ L Ha), (latest_absent rows latest _ L Hc) in H.
  destruct (load_summary f) as [| | | | |o]; try discriminate.
  assert (C0 : get_cafe (JObj o) = Ok (cafe_of (JObj o))).
  { unfold cafe_of. simpl. destruct (get String.eqb "cafe" o); reflexivity. }
  rewrite C0 in H. simpl in H. injection H as <-.
  unfold cafe_of at 1. simpl. rewrite (get_set_same _ String.eqb_spec). reflexivity.
Qed.

End SummaryClaims.

(** C6.  [update_price_summary] writes the loaded document back with its
    "cafe" object edited in place: every other top-level key keeps its value,
    and so does every key of "cafe" other than "date", "arabica" and
    "robusta".  When no row quotes arabica, "arabica" keeps its previous
    value; when no row quotes conillon, "robusta" keeps its previous value;
    when no row quotes either, "cafe" is written back as it was. *)
Theorem summary_keeps_previous (rows : list Cepea.row) (prev new : json) :
  Cepea.update_price_summary rows (Json prev) = Ok new ->
  (forall k, k <> "cafe" -> member k new = member k prev) /\
  (forall k, k <> "date" -> k <> "arabica" -> k <> "robusta" ->
             member k (cafe_of new) = member k (cafe_of prev)) /\
  ((forall r, In r rows -> ~ quotes (Some "arabica") r) ->
   member "arabica" (cafe_of new) = member "arabica" (cafe_of prev)) /\
  ((forall r, In r rows -> ~ quotes (Some "conillon") r) ->
   member "robusta" (cafe_of new) = member "robusta" (cafe_of prev)) /\
  ((forall r, In r rows -> ~ quotes (Some "arabica") r) ->
   (forall r, In r rows -> ~ quotes (Some "conillon") r) ->
   cafe_of new = cafe_of prev).
Proof.
  intros H. destruct (ups_spec _ _ _ H) as (latest & L & Top & Cafe).
  simpl in Top, Cafe. split; [exact Top|]. split; [|split; [|split]];
    [| | |intros Ha Hc; exact (ups_idle _ _ _ H Ha Hc)].
  - intros k N1 N2 N3. rewrite Cafe, (written_elsewhere latest k N1 N2 N3). reflexivity.
  - intros Ha. rewrite Cafe. unfold written. simpl.
    rewrite (latest_absent rows latest _ L Ha). reflexivity.
  - intros Hc. rewrite Cafe. unfold written. simpl.
    rewrite (latest_absent rows latest _ L Hc). reflexivity.
Qed.

Lemma summary_keeps_previous_witness :
  Cepea.update_price_summary [arabica_fifth] (Json previous_summary)
    = Ok (JObj [("fonte", JStr "noticiasagricolas");
                ("cafe", JObj [("date", JStr "2025-09-05"); ("arabica", JNum 227703%Z);
                               ("robusta", JNum 139900%Z)])]) /\
  member "robusta"
    (cafe_of (JObj [("fonte", JStr "noticiasagricolas");
                    ("cafe", JObj [("date", JStr "2025-09-05");
                                   ("arabica", JNum 227703%Z);
                                   ("robusta", JNum 139900%Z)])]))
    = member "robusta" (cafe_of previous_summary).
Proof.
  split; [reflexivity|].
  apply (summary_keeps_previous [arabica_fifth] previous_summary _ eq_refl).
  intros r [<- | []] [_ Q]. discriminate Q.
Defined.

(** C7, as the code has it.  When rows quote both variants, every row has
    its [valor] and the summary file can be merged into, the summary is
    written with "arabica" and "robusta" holding the [valor] of the first row
    of the greatest effective date of each variant, and with "date" holding
    the greater of those two dates (left as it was if that date is the empty
    string).  Nothing else is written under "cafe": the summary carries one
    date, not one per variant. *)
Theorem summary_latest (rows : list Cepea.row) (f : file) :
  (exists x, In x rows /\ quotes (Some "arabica") x) ->
  (exists x, In x rows /\ quotes (Some "conillon") x) ->
  (forall r, In r rows -> Cepea.valor r <> None) ->
  writable f ->
  exists new ra rc,
    Cepea.update_price_summary rows f = Ok new /\
    latest_row (Some "arabica") rows ra /\
    latest_row (Some "conillon") rows rc /\
    member "arabica" (cafe_of new) = Cepea.valor ra /\
    member "robusta" (cafe_of new) = Cepea.valor rc /\
    member "date" (cafe_of new)
      = (let date := if str_ge (Cepea.effective_date ra) (Cepea.effective_date rc)
                     then Cepea.effective_date ra else Cepea.effective_date rc in
         if truthy date then Some (JStr date)
         else member "date" (cafe_of (Cepea.load_summary f))) /\
    (forall k, k <> "date" -> k <> "arabica" -> k <> "robusta" ->
               member k (cafe_of new) = member k (cafe_of (Cepea.load_summary f))).
Proof.
  intros Pa Pc Hv Hw.
  destruct (ups_total rows f Hv Hw) as [new H].
  destruct (ups_spec _ _ _ H) as (latest & L & _ & Cafe).
  destruct (latest_present rows latest _ L Pa) as (ea & ra & Ga & La & Da & Va).
  destruct (latest_present rows latest _ L Pc) as (ec & rc & Gc & Lc & Dc & Vc).
  exists new, ra, rc. split; [exact H|]. split; [exact La|]. split; [exact Lc|].
  split; [|split; [|split]].
  - rewrite Cafe. unfold written. simpl. rewrite Ga, Va. reflexivity.
  - rewrite Cafe. unfold written. simpl. rewrite Gc, Vc. reflexivity.
  - rewrite Cafe. unfold written, date_value, Cepea.summary_date. simpl.
    rewrite Ga, Gc, Da, Dc.
    destruct (str_ge (Cepea.effective_date ra) (Cepea.effective_date rc));
      cbv zeta; [destruct (truthy (Cepea.effective_date ra))
                | destruct (truthy (Cepea.effective_date rc))]; reflexivity.
  - intros k N1 N2 N3. rewrite Cafe, (written_elsewhere latest k N1 N2 N3). reflexivity.
Qed.

Lemma summary_latest_witness :
  exists new ra rc,
    Cepea.update_price_summary [conillon_fourth; arabica_fifth] NoFile = Ok new /\
    latest_row (Some "arabica") [conillon_fourth; arabica_fifth] ra /\
    latest_row (Some "conillon") [conillon_fourth; arabica_fifth] rc /\
    member "arabica" (cafe_of new) = Cepea.valor ra /\
    member "robusta" (cafe_of new) = Cepea.valor rc /\
    member "date" (cafe_of new)
      = (let date := if str_ge (Cepea.effective_date ra) (Cepea.effective_date rc)
                     then Cepea.effective_date ra else Cepea.effective_date rc in
         if truthy date then Some (JStr date)
         else member "date" (cafe_of (Cepea.load_summary NoFile))) /\
    (forall k, k <> "date" -> k <> "arabica" -> k <> "robusta" ->
               member k (cafe_of new) = member k (cafe_of (Cepea.load_summary NoFile))).
Proof.
  apply (summary_latest [conillon_fourth; arabica_fifth] NoFile).
  - exists arabica_fifth. split; [simpl; auto | split; reflexivity].
  - exists conillon_fourth. split; [simpl; auto | split; reflexivity].
  - intros r [<- | [<- | []]]; discriminate.
  - exact I.
Defined.

(** C7 as stated fails: the summary reports one date only.  Two histories
    whose conillon quotations are of different days, the 4th and the 3rd,
    give the same summary, dated the 5th by the arabica quotation. *)
Lemma summary_latest_counterexample :
  Cepea.update_price_summary [conillon_fourth; arabica_fifth] NoFile
    = Ok (JObj [("cafe", JObj [("date", JStr "2025-09-05"); ("arabica", JNum 227703%Z);
                               ("robusta", JNum 140000%Z)])]) /\
  Cepea.update_price_summary [conillon_third; arabica_fifth] NoFile
    = Cepea.update_price_summary [conillon_fourth; arabica_fifth] NoFile /\
  latest_row (Some "conillon") [conillon_fourth; arabica_fifth] conillon_fourth /\
  latest_row (Some "conillon") [conillon_third; arabica_fifth] conillon_third /\
  Cepea.effective_date conillon_fourth = "2025-09-04" /\
  Cepea.effective_date conillon_third = "2025-09-03".
Proof.
  split; [reflexivity|]. split; [reflexivity|].
  assert (L : forall c, quotes (Some "conillon") c ->
                        latest_row (Some "conillon") [c; arabica_fifth] c).
  { intros c Q. split; [exact Q|]. exists [], [arabica_fifth].
    split; [reflexivity|]. split; [intros x []|].
    intros x [<- | []] [_ T]. discriminate T. }
  split; [apply L; split; reflexivity|].
  split; [apply L; split; reflexivity|].
  split; reflexivity.
Qed.

(** C8, as the code has it.  A history file that is missing, that cannot be
    read or parsed, or whose content is not a list makes [main] of
    [coletar_cafe_cepea.py] start from the empty history: the rows saved are
    the merge of the collected rows alone.  [update_history] starts from the
    empty history when the file is missing or is not a JSON text.  The
    elements of a list that was loaded are not checked. *)
Theorem unreadable_history_is_cold_start (f : file)
    (arabica conillon : list Cepea.row)
    (arabica_price conilon_price : number) (referente_a iso_ts : string) :
  not_a_list f ->
  Cepea.merged_rows f arabica conillon = Ok (Cepea.dedup (arabica ++ conillon)) /\
  (f = NoFile \/ f = BadJson ->
   Scrape.update_history f arabica_price conilon_price referente_a iso_ts
   = Ok (Scrape.prune
           (Scrape.extend_history [] arabica_price conilon_price referente_a iso_ts))).
Proof.
  intros H. split.
  - destruct f as [| | |j]; try reflexivity.
    destruct j; try reflexivity. contradiction.
  - intros [-> | ->]; reflexivity.
Qed.

Lemma unreadable_history_is_cold_start_witness :
  not_a_list BadJson /\
  Cepea.merged_rows BadJson [arabica_fifth] [conillon_fourth]
    = Ok (Cepea.dedup ([arabica_fifth] ++ [conillon_fourth])) /\
  Scrape.update_history BadJson 227703%Z 140000%Z "2025-09-05" "2025-09-05T21:00:00"
    = Ok (Scrape.prune
            (Scrape.extend_history [] 227703%Z 140000%Z
               "2025-09-05" "2025-09-05T21:00:00")).
Proof.
  split; [exact I|].
  destruct (unreadable_history_is_cold_start BadJson [arabica_fifth] [conillon_fourth]
              227703%Z 140000%Z "2025-09-05" "2025-09-05T21:00:00" I) as [H1 H2].
  split; [exact H1 | apply H2; right; reflexivity].
Defined.

(** C8 as stated fails: a history file holding the JSON text [[1]], a list
    that is not a sequence of records, is loaded as it is and ends the run
    of [coletar_cafe_cepea.py] with [AttributeError]; a file holding the
    number [1] ends [update_history] with [TypeError]. *)
Lemma unreadable_history_counterexample :
  Cepea.load_history (Json (JList [JNum 1%Z])) = JList [JNum 1%Z] /\
  Cepea.merged_rows (Json (JList [JNum 1%Z])) [] [] = Raise AttributeError /\
  Cepea.main (Json (JList [JNum 1%Z])) NoFile [] [] = Raise AttributeError /\
  Scrape.update_history (Json (JNum 1%Z)) 227703%Z 140000%Z
    "2025-09-05" "2025-09-05T21:00:00" = Raise TypeError.
Proof.
  repeat split.
Qed.

Section MarketClaims.
Import Scrape.

Lemma weekday_range (now : datetime) : (0 <= weekday now < 7)%Z.
Proof.
  unfold weekday. apply Z.mod_pos_bound. lia.
Qed.

Lemma business_day_iff (now : datetime) :
  is_business_day (day_of_week now) = true <-> (weekday now < 5)%Z.
Proof.
  unfold day_of_week. pose proof (weekday_range now) as R.
  destruct (weekday now) as [|p|p]; [simpl; split; [lia | reflexivity]| |lia].
  assert (C : (p = 1 \/ p = 2 \/ p = 3 \/ p = 4 \/ p = 5 \/ p = 6)%positive) by lia.
  destruct C as [-> | [-> | [-> | [-> | [-> | ->]]]]]; simpl; split;
    solve [reflexivity | lia | discriminate].
Qed.

End MarketClaims.

(** C9.  [is_market_open] holds exactly on a Monday, Tuesday, Wednesday,
    Thursday or Friday at an hour from 8 to 16: it holds on Wednesday
    2025-09-03 at 10, and neither on that day at 19 nor on Saturday
    2025-09-06 at 10. *)
Theorem market_open_iff :
  (forall now,
     Scrape.is_market_open now = true <->
     Scrape.is_business_day (Scrape.day_of_week now) = true /\
     (8 <= Scrape.hour now < 17)%Z) /\
  (Scrape.day_of_week (wednesday_at 10) = Scrape.Wednesday /\
   Scrape.is_market_open (wednesday_at 10) = true) /\
  (Scrape.day_of_week (wednesday_at 19) = Scrape.Wednesday /\
   Scrape.is_market_open (wednesday_at 19) = false) /\
  (Scrape.day_of_week (saturday_at 10) = Scrape.Saturday /\
   Scrape.is_market_open (saturday_at 10) = false).
Proof.
  split; [|repeat split].
  intros now. rewrite business_day_iff. unfold Scrape.is_market_open.
  rewrite !andb_true_iff, Z.ltb_lt, Z.leb_le, Z.ltb_lt. tauto.
Qed.

(** * Further properties of the collectors *)

(** ** [fetch] *)

Section FetchFacts.
Import Cepea.

Lemma fetch_loop_success (server : nat -> attempt) (k : nat) :
  forall i n last t,
    k < n ->
    (forall j, j < k -> exists e, server (i + j) = Failed e) ->
    server (i + k) = Got t ->
    fetch_loop server i n last = (Text t, seq (S i) k).
Proof.
  induction k as [|k IH]; intros i n last t Hn Hf Hg.
  - destruct n as [|n]; [lia|]. simpl. rewrite Nat.add_0_r in Hg. rewrite Hg. reflexivity.
  - destruct n as [|n]; [lia|]. simpl.
    destruct (Hf 0) as [e He]; [lia|]. rewrite Nat.add_0_r in He. rewrite He.
    rewrite (IH (S i) n (Some e) t).
    + reflexivity.
    + lia.
    + intros j Hj. destruct (Hf (S j)) as [e' He']; [lia|].
      exists e'. rewrite <- He'. f_equal. lia.
    + rewrite <- Hg. f_equal. lia.
Qed.

Lemma fetch_loop_exhausted (server : nat -> attempt) (m : nat) :
  forall i last e,
    (forall j, j < m -> exists e', server (i + j) = Failed e') ->
    server (i + m) = Failed e ->
    fetch_loop server i (S m) last = (Raised e, seq (S i) (S m)).
Proof.
  induction m as [|m IH]; intros i last e Hf He.
  - simpl. rewrite Nat.add_0_r in He. rewrite He. reflexivity.
  - destruct (Hf 0) as [e0 He0]; [lia|]. rewrite Nat.add_0_r in He0.
    change (fetch_loop server i (S (S m)) last)
      with (match server i with
            | Got t => (Text t, [])
            | Failed e1 =>
                let '(r, waits) := fetch_loop server (S i) (S m) (Some e1) in
                (r, S i :: waits)
            end).
    rewrite He0, (IH (S i) (Some e0) e).
    + reflexivity.
    + intros j Hj. destruct (Hf (S j)) as [e' He']; [lia|].
      exists e'. rewrite <- He'. f_equal. lia.
    + rewrite <- He. f_equal. lia.
Qed.

Lemma fetch_loop_bounds (server : nat -> attempt) (n : nat) :
  forall i last,
    List.length (snd (fetch_loop server i n last)) <= n /\
    (fst (fetch_loop server i n last) = RaisedNone -> n = 0 /\ last = None) /\
    (forall t, fst (fetch_loop server i n last) = Text t ->
       exists k, k < n /\ server (i + k) = Got t /\
                 snd (fetch_loop server i n last) = seq (S i) k).
Proof.
  induction n as [|n IH]; intros i last.
  - simpl. split; [lia|]. split.
    + destruct last; [discriminate | auto].
    + intros t H. destruct last; discriminate.
  - simpl. destruct (server i) as [t0|e] eqn:E.
    + simpl. split; [lia|]. split; [discriminate|].
      intros t H. injection H as ->. exists 0. rewrite Nat.add_0_r. auto with arith.
    + destruct (IH (S i) (Some e)) as (B1 & B2 & B3).
      destruct (fetch_loop server (S i) n (Some e)) as [r waits]. simpl in *.
      split; [lia|]. split.
      * intros H. destruct (B2 H) as [_ F]. discriminate.
      * intros t H. destruct (B3 t H) as (k & Hk & Hg & Hw).
        exists (S k). split; [lia|]. split.
        -- rewrite <- Hg. f_equal. lia.
        -- rewrite Hw. reflexivity.
Qed.

Lemma sum_seq (n : nat) : 2 * list_sum (seq 1 n) = n * (n + 1).
Proof.
  induction n as [|n IH]; [reflexivity|].
  rewrite seq_S, list_sum_app. simpl list_sum. lia.
Qed.

End FetchFacts.

(** X1.  When the first [k] requests fail and the next one, still within
    [retries], succeeds, [fetch] returns its text after [k] waits of
    1, 2, ..., [k] times [backoff]. *)
Theorem fetch_first_success (server : nat -> Cepea.attempt) (retries : Z)
    (k : nat) (t : string) :
  (Z.of_nat k < retries)%Z ->
  (forall j, j < k -> exists e, server j = Cepea.Failed e) ->
  server k = Cepea.Got t ->
  Cepea.fetch server retries = (Cepea.Text t, seq 1 k).
Proof.
  intros Hk Hf Hg. unfold Cepea.fetch.
  apply fetch_loop_success; [lia | exact Hf | exact Hg].
Qed.

Lemma fetch_first_success_witness :
  Cepea.fetch flaky_server 3 = (Cepea.Text "<html>", [1; 2]).
Proof.
  apply (fetch_first_success flaky_server 3 2 "<html>").
  - lia.
  - intros j Hj. exists "timeout". unfold flaky_server.
    destruct j as [|[|j]]; [reflexivity | reflexivity | lia].
  - reflexivity.
Defined.

(** X2.  When all [retries] requests fail, [fetch] raises the exception of
    the last one, and it has waited after every failure, the last included:
    [retries] waits of 1, 2, ..., [retries] times [backoff], in all
    [retries * (retries + 1) / 2] times [backoff]. *)
Theorem fetch_exhausted (server : nat -> Cepea.attempt) (retries : Z) (e : string) :
  (0 < retries)%Z ->
  (forall j, (Z.of_nat j < retries)%Z -> exists e', server j = Cepea.Failed e') ->
  server (Z.to_nat retries - 1) = Cepea.Failed e ->
  Cepea.fetch server retries = (Cepea.Raised e, seq 1 (Z.to_nat retries)) /\
  2 * list_sum (snd (Cepea.fetch server retries))
    = Z.to_nat retries * (Z.to_nat retries + 1).
Proof.
  intros Hr Hf He. unfold Cepea.fetch.
  destruct (Z.to_nat retries) as [|m] eqn:En; [lia|].
  assert (E : Cepea.fetch_loop server 0 (S m) None
              = (Cepea.Raised e, seq 1 (S m))).
  { apply fetch_loop_exhausted.
    - intros j Hj. apply Hf. lia.
    - rewrite <- He. f_equal. lia. }
  split; [exact E|]. rewrite E. simpl snd. apply (sum_seq (S m)).
Qed.

Lemma fetch_exhausted_witness :
  Cepea.fetch dead_server 3 = (Cepea.Raised "refused", [1; 2; 3]) /\
  2 * list_sum (snd (Cepea.fetch dead_server 3)) = 3 * (3 + 1).
Proof.
  apply (fetch_exhausted dead_server 3 "refused").
  - lia.
  - intros j _. exists "refused". reflexivity.
  - reflexivity.
Defined.

(** X3.  [fetch] never makes more than [retries] requests nor waits more
    often; a text it returns is the answer of the first request that
    succeeded; and it ends with [raise None], a [TypeError], exactly when
    [retries] is not positive, in which case nothing was requested. *)
Theorem fetch_bounds (server : nat -> Cepea.attempt) (retries : Z) :
  List.length (snd (Cepea.fetch server retries)) <= Z.to_nat retries /\
  (fst (Cepea.fetch server retries) = Cepea.RaisedNone <-> (retries <= 0)%Z) /\
  (forall t, fst (Cepea.fetch server retries) = Cepea.Text t ->
     exists k, (Z.of_nat k < retries)%Z /\ server k = Cepea.Got t /\
               (forall j, j < k -> exists e, server j = Cepea.Failed e) /\
               snd (Cepea.fetch server retries) = seq 1 k).
Proof.
  unfold Cepea.fetch.
  destruct (fetch_loop_bounds server (Z.to_nat retries) 0 None) as (B1 & B2 & B3).
  split; [exact B1|]. split; [split|].
  - intros H. destruct (B2 H) as [E _]. lia.
  - intros H. replace (Z.to_nat retries) with 0 by lia. reflexivity.
  - intros t H. destruct (B3 t H) as (k & Hk & Hg & Hw).
    exists k. split; [lia|]. split; [exact Hg|]. split; [|exact Hw].
    clear B1 B2 B3 Hg. revert H Hw Hk.
    generalize (Z.to_nat retries) as n. generalize (@None string) as last.
    assert (G : forall n i last k,
              fst (Cepea.fetch_loop server i n last) = Cepea.Text t ->
              snd (Cepea.fetch_loop server i n last) = seq (S i) k ->
              forall j, j < k -> exists e, server (i + j) = Cepea.Failed e).
    { clear. induction n as [|n IH]; intros i last k H Hw j Hj.
      - simpl in Hw. destruct k; [lia | discriminate].
      - simpl in H, Hw. destruct (server i) as [t0|e] eqn:E.
        + simpl in Hw. destruct k; [lia | discriminate].
        + destruct (Cepea.fetch_loop server (S i) n (Some e)) as [r waits] eqn:F.
          simpl in H, Hw. destruct k as [|k]; [discriminate|].
          simpl in Hw. injection Hw as Hw.
          destruct j as [|j]; [exists e; rewrite Nat.add_0_r; exact E|].
          destruct (IH (S i) (Some e) k) with (j := j) as [e' He'].
          * rewrite F. exact H.
          * rewrite F. exact Hw.
          * lia.
          * exists e'. rewrite <- He'. f_equal. lia. }
    intros last n H Hw _ j Hj. exact (G n 0 last k H Hw j Hj).
Qed.

(** ** [parse_hist_from_text] *)

Section ParseFacts.
Import Cepea.
Variable ref_date : string -> option string.
Variable currency : string -> option number.
Variable now : nat -> string.

Lemma first_valor_none (window : list string) :
  (forall l, In l window -> currency l = None) -> first_valor currency window = None.
Proof.
  induction window as [|l w IH]; intros H; simpl; [reflexivity|].
  rewrite (H l (or_introl eq_refl)). apply IH. intros x Hx. apply H. simpl. auto.
Qed.

Lemma first_valor_skip (gap tail : list string) :
  (forall l, In l gap -> currency l = None) ->
  first_valor currency (gap ++ tail) = first_valor currency tail.
Proof.
  induction gap as [|l g IH]; intros H; simpl; [reflexivity|].
  rewrite (H l (or_introl eq_refl)). apply IH. intros x Hx. apply H. simpl. auto.
Qed.

Lemma first_valor_some (window : list string) (v : number) :
  first_valor currency window = Some v ->
  exists l, In l window /\ currency l = Some v.
Proof.
  induction window as [|l w IH]; simpl; [discriminate|].
  destruct (currency l) as [v'|] eqn:E.
  - intros H. injection H as ->. exists l. auto.
  - intros H. destruct (IH H) as (x & Hx & Ex). exists x. auto.
Qed.

Lemma window_reaches (gap : list string) (p : string) (rest : list string) (v : number) :
  (forall l, In l gap -> currency l = None) -> currency p = Some v ->
  first_valor currency (firstn 10 (gap ++ p :: rest))
  = if (List.length gap <? 10)%nat then Some v else None.
Proof.
  intros Hg Hp. rewrite firstn_app.
  destruct (Nat.ltb_spec (List.length gap) 10) as [L | L].
  - rewrite first_valor_skip.
    + destruct (10 - List.length gap) as [|n] eqn:E; [lia|]. simpl. rewrite Hp. reflexivity.
    + intros l Hl. apply Hg. rewrite <- (firstn_skipn 10 gap). apply in_or_app. auto.
  - replace (10 - List.length gap) with 0 by lia. simpl. rewrite app_nil_r.
    apply first_valor_none. intros l Hl. apply Hg.
    rewrite <- (firstn_skipn 10 gap). apply in_or_app. auto.
Qed.

Lemma parse_lines_rows (lines : list string) (variant fonte_url : string) :
  forall k r,
    In r (parse_lines ref_date currency now lines variant fonte_url k) ->
    produto r = Some "cafe" /\ tipo r = Some variant /\
    exists line v l,
      In line lines /\ PyStr.startswith "Fechamento:" line = true /\
      referente_a r = ref_date line /\
      In l lines /\ currency l = Some v /\ valor r = Some (JNum v).
Proof.
  induction lines as [|line rest IH]; intros k r H; cbn [parse_lines] in H;
    [destruct H|].
  assert (Tail : forall k', In r (parse_lines ref_date currency now rest variant fonte_url k') ->
            produto r = Some "cafe" /\ Cepea.tipo r = Some variant /\
            exists line0 v l,
              In line0 (line :: rest) /\ PyStr.startswith "Fechamento:" line0 = true /\
              referente_a r = ref_date line0 /\
              In l (line :: rest) /\ currency l = Some v /\ valor r = Some (JNum v)).
  { intros k' H'. destruct (IH k' r H') as (P & T & line0 & v & l & H1 & H2 & H3 & H4 & H5).
    split; [exact P|]. split; [exact T|]. exists line0, v, l. simpl. tauto. }
  destruct (PyStr.startswith "Fechamento:" line) eqn:S1; [|eauto].
  destruct (first_valor currency (firstn 10 rest)) as [v|] eqn:F; [|eauto].
  simpl in H. destruct H as [H | H]; [|eauto].
  subst r. simpl. split; [reflexivity|]. split; [reflexivity|].
  destruct (first_valor_some _ _ F) as (l & Hl & El).
  exists line, v, l. split; [auto|]. split; [exact S1|]. split; [reflexivity|].
  split; [|auto]. right. rewrite <- (firstn_skipn 10 rest). apply in_or_app. auto.
Qed.

Lemma parse_lines_count (lines : list string) (variant fonte_url : string) :
  forall k,
    List.length (parse_lines ref_date currency now lines variant fonte_url k)
    <= List.length (filter (PyStr.startswith "Fechamento:") lines).
Proof.
  induction lines as [|line rest IH]; intros k; cbn [parse_lines filter];
    [simpl; lia|].
  destruct (PyStr.startswith "Fechamento:" line); [|apply IH].
  destruct (first_valor currency (firstn 10 rest)); cbn [List.length].
  - specialize (IH (S k)). lia.
  - specialize (IH k). lia.
Qed.

Lemma parse_lines_clock (lines : list string) (variant fonte_url : string) :
  forall k,
    map coletado_em (parse_lines ref_date currency now lines variant fonte_url k)
    = map now (seq k (List.length
                        (parse_lines ref_date currency now lines variant fonte_url k))).
Proof.
  induction lines as [|line rest IH]; intros k; cbn [parse_lines]; [reflexivity|].
  destruct (PyStr.startswith "Fechamento:" line); [|apply IH].
  destruct (first_valor currency (firstn 10 rest)); [|apply IH].
  cbn [map List.length seq]. rewrite IH. reflexivity.
Qed.

Lemma parse_lines_closing (line : string) (rest : list string)
    (variant fonte_url : string) (k : nat) (v : number) :
  PyStr.startswith "Fechamento:" line = true ->
  first_valor currency (firstn 10 rest) = Some v ->
  parse_lines ref_date currency now (line :: rest) variant fonte_url k
  = closing ref_date now variant fonte_url line v k
      :: parse_lines ref_date currency now rest variant fonte_url (S k).
Proof.
  intros S1 F. cbn [parse_lines]. rewrite S1, F. reflexivity.
Qed.

End ParseFacts.

(** X4.  [parse_hist_from_text] builds at most one row per closing line.
    Every row is a "cafe" row of the [tipo] asked for, dated by a closing
    line of the text and valued by an amount of some line of the text, and
    the rows carry the timestamps in the order they were taken. *)
Theorem parse_hist_rows (ref_date : string -> option string)
    (currency : string -> option number) (now : nat -> string)
    (lines : list string) (variant fonte_url : string) :
  List.length (Cepea.parse_hist_from_text ref_date currency now lines variant fonte_url)
    <= List.length (filter (PyStr.startswith "Fechamento:") lines) /\
  map Cepea.coletado_em
      (Cepea.parse_hist_from_text ref_date currency now lines variant fonte_url)
    = map now (seq 0 (List.length
         (Cepea.parse_hist_from_text ref_date currency now lines variant fonte_url))) /\
  (forall r,
     In r (Cepea.parse_hist_from_text ref_date currency now lines variant fonte_url) ->
     Cepea.produto r = Some "cafe" /\ Cepea.tipo r = Some variant /\
     exists line v l,
       In line lines /\ PyStr.startswith "Fechamento:" line = true /\
       Cepea.referente_a r = ref_date line /\
       In l lines /\ currency l = Some v /\ Cepea.valor r = Some (JNum v)).
Proof.
  unfold Cepea.parse_hist_from_text. split; [apply parse_lines_count|].
  split; [apply parse_lines_clock|]. intros r. apply parse_lines_rows.
Qed.

(** X5.  A closing line takes the first amount found in the ten lines that
    follow it and no further: with the amount [p] standing after [gap] lines
    that hold none, the closing line gives a row when [gap] has fewer than
    ten lines and gives nothing when it has ten or more. *)
Theorem parse_hist_window (ref_date : string -> option string)
    (currency : string -> option number) (now : nat -> string)
    (line : string) (gap : list string) (p : string) (rest : list string)
    (variant fonte_url : string) (v : number) :
  PyStr.startswith "Fechamento:" line = true ->
  (forall l, In l gap -> currency l = None) ->
  currency p = Some v ->
  Cepea.parse_hist_from_text ref_date currency now (line :: gap ++ p :: rest)
    variant fonte_url
  = if (List.length gap <? 10)%nat
    then Cepea.closing ref_date now variant fonte_url line v 0
           :: Cepea.parse_lines ref_date currency now (gap ++ p :: rest)
                variant fonte_url 1
    else Cepea.parse_lines ref_date currency now (gap ++ p :: rest)
           variant fonte_url 0.
Proof.
  intros S1 Hg Hp. unfold Cepea.parse_hist_from_text. cbn [Cepea.parse_lines].
  rewrite S1, (window_reaches currency gap p rest v Hg Hp).
  destruct (List.length gap <? 10)%nat; reflexivity.
Qed.

Lemma parse_hist_window_witness :
  Cepea.parse_hist_from_text sample_ref_date sample_currency sample_now
    ("Fechamento: 05/09/2025" :: ["Valor R$"] ++ "2.277,03" :: []) "arabica" "url"
  = [Cepea.closing sample_ref_date sample_now "arabica" "url"
       "Fechamento: 05/09/2025" 227703%Z 0].
Proof.
  apply (parse_hist_window sample_ref_date sample_currency sample_now
           "Fechamento: 05/09/2025" ["Valor R$"] "2.277,03" [] "arabica" "url"
           227703%Z).
  - reflexivity.
  - intros l [<- | []]. reflexivity.
  - reflexivity.
Defined.

(** X6.  Two closing lines that follow one another share the amount found
    after the second: the first one, having no amount of its own within
    reach, takes the one of the second. *)
Theorem parse_hist_shared_value (ref_date : string -> option string)
    (currency : string -> option number) (now : nat -> string)
    (line1 line2 p : string) (rest : list string)
    (variant fonte_url : string) (v : number) :
  PyStr.startswith "Fechamento:" line1 = true ->
  PyStr.startswith "Fechamento:" line2 = true ->
  currency line2 = None ->
  currency p = Some v ->
  Cepea.parse_hist_from_text ref_date currency now (line1 :: line2 :: p :: rest)
    variant fonte_url
  = Cepea.closing ref_date now variant fonte_url line1 v 0
      :: Cepea.closing ref_date now variant fonte_url line2 v 1
      :: Cepea.parse_lines ref_date currency now (p :: rest) variant fonte_url 2.
Proof.
  intros S1 S2 C2 Hp. unfold Cepea.parse_hist_from_text.
  rewrite (parse_lines_closing ref_date currency now line1 _ _ _ 0 v S1).
  - rewrite (parse_lines_closing ref_date currency now line2 _ _ _ 1 v S2).
    + reflexivity.
    + apply (window_reaches currency [] p rest v); [intros l []|exact Hp].
  - apply (window_reaches currency [line2] p rest v); [|exact Hp].
    intros l [<- | []]. exact C2.
Qed.

Lemma parse_hist_shared_value_witness :
  map (fun r => (Cepea.referente_a r, Cepea.valor r))
    (Cepea.parse_hist_from_text sample_ref_date sample_currency sample_now
       ["Fechamento: 04/09/2025"; "Fechamento: 05/09/2025"; "2.277,03"]
       "arabica" "url")
  = [(Some "2025-09-04", Some (JNum 227703%Z));
     (Some "2025-09-05", Some (JNum 227703%Z))].
Proof.
  rewrite (parse_hist_shared_value sample_ref_date sample_currency sample_now
             "Fechamento: 04/09/2025" "Fechamento: 05/09/2025" "2.277,03" []
             "arabica" "url" 227703%Z eq_refl eq_refl eq_refl eq_refl).
  reflexivity.
Defined.

(** ** [parse_with_fallback] and [main] *)

Section FallbackFacts.
Import Cepea.

Lemma fallback_prefix (items : list row) (key_set : bool) (ai : option (list row)) :
  exists l,
    parse_with_fallback items key_set ai = items ++ l /\
    (l <> [] -> key_set = true /\ List.length items <= 2 /\ ai = Some l).
Proof.
  unfold parse_with_fallback, extract_with_openai.
  destruct items as [|r items].
  - destruct key_set.
    + destruct ai as [l|].
      * exists l. split; [reflexivity|]. intros _. simpl. auto with arith.
      * exists []. split; [reflexivity | congruence].
    + exists []. split; [reflexivity | congruence].
  - destruct (Nat.leb_spec (List.length (r :: items)) 2) as [L | L];
      destruct key_set; cbn [andb].
    + destruct ai as [l|].
      * exists l. split; [reflexivity|]. auto.
      * exists []. split; [rewrite app_nil_r; reflexivity | congruence].
    + exists []. split; [rewrite app_nil_r; reflexivity | congruence].
    + exists []. split; [rewrite app_nil_r; reflexivity | congruence].
    + exists []. split; [rewrite app_nil_r; reflexivity | congruence].
Qed.

Lemma merged_rows_ok (f : file) (arabica conillon saved : list row) :
  merged_rows f arabica conillon = Ok saved ->
  exists history, saved = dedup (history ++ arabica ++ conillon).
Proof.
  unfold merged_rows. intros H.
  destruct (mapM as_row _) as [history|]; [|discriminate].
  injection H as <-. exists history. reflexivity.
Qed.

End FallbackFacts.

(** X7.  [parse_with_fallback] returns the rows parsed from the page with,
    at most, rows appended to them: rows are appended only when the key is
    set and the page gave two rows or fewer, and they are then exactly the
    rows the extraction returned. *)
Theorem fallback_keeps_items (items : list Cepea.row) (key_set : bool)
    (ai : option (list Cepea.row)) :
  exists l,
    Cepea.parse_with_fallback items key_set ai = items ++ l /\
    (l <> [] -> key_set = true /\ List.length items <= 2 /\ ai = Some l).
Proof.
  apply fallback_prefix.
Qed.

(** X8.  Whatever the fallback extraction does, every row parsed from the
    two pages is represented in the history [main] saves: by a row of the
    same key that was collected at the same time or later. *)
Theorem main_keeps_parsed_rows (f : file) (items_a items_c : list Cepea.row)
    (key_set : bool) (ai_a ai_c : option (list Cepea.row))
    (saved : list Cepea.row) (r : Cepea.row) :
  Cepea.merged_rows f (Cepea.parse_with_fallback items_a key_set ai_a)
                      (Cepea.parse_with_fallback items_c key_set ai_c) = Ok saved ->
  In r (items_a ++ items_c) ->
  exists r', In r' saved /\ Cepea.key r' = Cepea.key r /\
             str_le (Cepea.coletado_em r) (Cepea.coletado_em r') = true.
Proof.
  intros H Hr. apply merged_rows_ok in H. destruct H as [history ->].
  destruct (fallback_prefix items_a key_set ai_a) as (la & -> & _).
  destruct (fallback_prefix items_c key_set ai_c) as (lc & -> & _).
  set (rows := history ++ (items_a ++ la) ++ items_c ++ lc).
  assert (Hin : In r rows).
  { unfold rows. rewrite !in_app_iff. apply in_app_or in Hr. tauto. }
  destruct (dedup_survivor rows r Hin) as (r' & H' & K).
  exists r'. split; [exact H'|]. split; [exact K|].
  apply in_dedup in H'. apply (fg_bound rows); [exact H' | exact Hin | congruence].
Qed.

Lemma main_keeps_parsed_rows_witness :
  exists r', In r' [second_scrape] /\ Cepea.key r' = Cepea.key first_scrape /\
             str_le (Cepea.coletado_em first_scrape) (Cepea.coletado_em r') = true.
Proof.
  apply (main_keeps_parsed_rows NoFile [first_scrape] [] true
           (Some [second_scrape]) None [second_scrape] first_scrape).
  - reflexivity.
  - left. reflexivity.
Defined.

(** ** [dedup] run after run *)

Section IncrementalFacts.
Import Cepea.

Lemma get_dedup_step (k : ident) (d : dict) (r : row) :
  get ident_eqb k (dedup_step d r) = winner_step k (get ident_eqb k d) r.
Proof.
  unfold dedup_step, winner_step.
  destruct (ident_eqb_spec (key r) k) as [E | E].
  - subst k. destruct (get ident_eqb (key r) d) as [prev|] eqn:G.
    + destruct (str_gt (coletado_em r) (coletado_em prev)).
      * apply (get_set_same _ ident_eqb_spec).
      * exact G.
    + apply (get_set_same _ ident_eqb_spec).
  - destruct (get ident_eqb (key r) d) as [prev|].
    + destruct (str_gt (coletado_em r) (coletado_em prev)); [|reflexivity].
      apply (get_set_other _ ident_eqb_spec). congruence.
    + apply (get_set_other _ ident_eqb_spec). congruence.
Qed.

Lemma get_dedup_fold (k : ident) (l : list row) :
  forall d, get ident_eqb k (fold_left dedup_step l d)
            = fold_left (winner_step k) l (get ident_eqb k d).
Proof.
  induction l as [|r l IH]; intros d; simpl; [reflexivity|].
  rewrite IH, get_dedup_step. reflexivity.
Qed.

Lemma get_dedup_dict (k : ident) (l : list row) :
  get ident_eqb k (dedup_dict l) = winner k l.
Proof.
  unfold dedup_dict, winner. rewrite get_dedup_fold. reflexivity.
Qed.

Lemma in_dedup_winner (l : list row) (r : row) :
  In r (dedup l) <-> winner (key r) l = Some r.
Proof.
  rewrite <- get_dedup_dict. unfold dedup. rewrite sorted_in.
  destruct (dedup_dict_inv l) as (N & I2 & _). split.
  - intros H. unfold values in H. apply in_map_iff in H.
    destruct H as ([k r'] & E & H). simpl in E. subst r'.
    apply (in_get_some _ ident_eqb_spec) in H; [|exact N].
    destruct (I2 _ _ H) as [<- _]. exact H.
  - intros H. apply (get_some_in _ ident_eqb_spec) in H.
    unfold values. apply in_map_iff. exists (key r, r). auto.
Qed.

Lemma winner_key (k : ident) (l : list row) (r : row) :
  winner k l = Some r -> key r = k.
Proof.
  rewrite <- get_dedup_dict. intros H.
  destruct (dedup_dict_inv l) as (_ & I2 & _). apply (I2 _ _ H).
Qed.

Lemma winner_fold_kept (k : ident) (l : list row) (p : row) :
  (forall x, In x l -> key x <> k) ->
  fold_left (winner_step k) l (Some p) = Some p.
Proof.
  induction l as [|r l IH]; intros H; simpl; [reflexivity|].
  unfold winner_step at 2.
  destruct (ident_eqb_spec (key r) k) as [E | E].
  - exfalso. apply (H r); simpl; auto.
  - apply IH. intros x Hx. apply H. simpl. auto.
Qed.

(** On a list with one row per key the loop holds, for each key, the row of
    that key. *)
Lemma winner_one_per_key (k : ident) (l : list row) (r : row) :
  NoDup (map key l) -> In r l -> key r = k -> winner k l = Some r.
Proof.
  unfold winner. induction l as [|x l IH]; intros N Hr Hk; [destruct Hr|].
  simpl in N. inversion N as [|? ? Hn N']; subst. simpl.
  unfold winner_step at 2.
  destruct Hr as [-> | Hr].
  - destruct (ident_eqb_spec (key r) (key r)) as [_ | F]; [|congruence].
    apply winner_fold_kept. intros y Hy E. apply Hn. rewrite <- E. apply in_map, Hy.
  - destruct (ident_eqb_spec (key x) (key r)) as [E | E].
    + exfalso. apply Hn. rewrite E. apply in_map, Hr.
    + apply IH; auto.
Qed.

Lemma winner_none (k : ident) (l : list row) :
  (forall x, In x l -> key x <> k) -> winner k l = None.
Proof.
  unfold winner. induction l as [|x l IH]; intros H; simpl; [reflexivity|].
  unfold winner_step at 2.
  destruct (ident_eqb_spec (key x) k) as [E | E].
  - exfalso. apply (H x); simpl; auto.
  - apply IH. intros y Hy. apply H. simpl. auto.
Qed.

Lemma winner_dedup (k : ident) (l : list row) : winner k (dedup l) = winner k l.
Proof.
  destruct (winner k l) as [r|] eqn:W.
  - pose proof (winner_key _ _ _ W) as K. subst k.
    apply winner_one_per_key; [apply dedup_keys_nodup | | reflexivity].
    apply in_dedup_winner. exact W.
  - apply winner_none. intros x Hx E. subst k.
    apply in_dedup_winner in Hx. congruence.
Qed.

Lemma winner_incremental (k : ident) (a b : list row) :
  winner k (dedup a ++ b) = winner k (a ++ b).
Proof.
  unfold winner. rewrite !fold_left_app.
  fold (winner k (dedup a)). fold (winner k a). rewrite winner_dedup. reflexivity.
Qed.

Lemma dedup_nodup (l : list row) : NoDup (dedup l).
Proof.
  apply (NoDup_map_inv key). apply dedup_keys_nodup.
Qed.

End IncrementalFacts.

(** X9.  Merging run after run comes to merging at once: the history saved
    by a run that starts from the saved history of [a] and collects [b]
    holds the same rows as the merge of [a] and [b] together. *)
Theorem dedup_incremental (a b : list Cepea.row) :
  Permutation (Cepea.dedup (Cepea.dedup a ++ b)) (Cepea.dedup (a ++ b)) /\
  (forall r, In r (Cepea.dedup (Cepea.dedup a ++ b)) <-> In r (Cepea.dedup (a ++ b))).
Proof.
  assert (M : forall r, In r (Cepea.dedup (Cepea.dedup a ++ b))
                        <-> In r (Cepea.dedup (a ++ b))).
  { intros r. rewrite !in_dedup_winner, winner_incremental. reflexivity. }
  split; [|exact M].
  apply NoDup_Permutation; [apply dedup_nodup | apply dedup_nodup | exact M].
Qed.

(** ** The summary [main] writes *)

Section MainSummaryFacts.
Import Cepea.

Lemma main_ok (precos prices : file) (arabica conillon saved : list row) (summary : json) :
  main precos prices arabica conillon = Ok (saved, summary) ->
  merged_rows precos arabica conillon = Ok saved /\
  update_price_summary saved prices = Ok summary.
Proof.
  unfold main. intros H.
  destruct (merged_rows precos arabica conillon) as [rows|]; [|discriminate].
  cbn [bind] in H.
  destruct (update_price_summary rows prices) as [doc|] eqn:U; [|discriminate].
  injection H as E1 E2. subst. split; [reflexivity | exact U].
Qed.

Lemma quotes_key (t : option string) (x y : row) :
  key x = key y -> quotes t x -> quotes t y.
Proof.
  unfold key, quotes. intros E [P T]. injection E as E1 E2 _. split; congruence.
Qed.

Lemma key_date (x y : row) : key x = key y -> effective_date x = effective_date y.
Proof.
  unfold key. intros E. injection E as _ _ E. exact E.
Qed.

Lemma written_field (latest : latest_t) (t field : string) :
  (t = "arabica" /\ field = "arabica") \/ (t = "conillon" /\ field = "robusta") ->
  written latest field = option_map snd (get opt_eqb (Some t) latest).
Proof.
  intros [[-> ->] | [-> ->]]; reflexivity.
Qed.

(** The value summarised for a variant from a merged history. *)
Lemma summary_of_dedup (rows : list row) (f : file) (new : json)
    (t field : string) (x : row) :
  update_price_summary (dedup rows) f = Ok new ->
  (t = "arabica" /\ field = "arabica") \/ (t = "conillon" /\ field = "robusta") ->
  In x rows -> quotes (Some t) x ->
  exists r, In r (dedup rows) /\ quotes (Some t) r /\
            member field (cafe_of new) = valor r /\
            str_le (effective_date x) (effective_date r) = true /\
            (effective_date x = effective_date r ->
             str_le (coletado_em x) (coletado_em r) = true).
Proof.
  intros H Hf Hx Qx.
  destruct (ups_spec _ _ _ H) as (latest & L & _ & Cafe).
  destruct (dedup_survivor rows x Hx) as (x' & Hx' & Kx).
  assert (P : exists y, In y (dedup rows) /\ quotes (Some t) y).
  { exists x'. split; [exact Hx'|]. apply (quotes_key _ x); [congruence | exact Qx]. }
  destruct (latest_present _ latest _ L P) as (e & r & G & [Qr Fr] & _ & V).
  pose proof (fm_in _ _ _ _ Fr) as Hr.
  exists r. split; [exact Hr|]. split; [exact Qr|]. split; [|split].
  - rewrite Cafe, (written_field latest t field Hf), G. simpl. congruence.
  - rewrite <- (key_date x' x Kx).
    apply (fm_bound (quotes (Some t)) effective_date (dedup rows) r x'); auto.
    apply (quotes_key _ x); [congruence | exact Qx].
  - intros E. apply in_dedup in Hr. apply (fg_bound rows); [exact Hr | exact Hx|].
    destruct Qx as [Px Tx], Qr as [Pr Tr]. unfold key. congruence.
Qed.

Lemma set_get_same {V : Type} (k : string) (v : V) (d : dict) :
  get String.eqb k d = Some v -> set String.eqb k v d = d.
Proof.
  induction d as [|[k' v'] d IH]; simpl; [discriminate|].
  destruct (String.eqb_spec k k') as [E | E].
  - intros H. injection H as ->. subst. reflexivity.
  - intros H. rewrite (IH H). reflexivity.
Qed.

Lemma latest_quoted (rows : list row) (latest : latest_t) :
  latest_loop rows [] = Ok latest -> quoted rows ->
  get opt_eqb (Some "arabica") latest <> None \/
  get opt_eqb (Some "conillon") latest <> None.
Proof.
  intros L (r & Hr & [Q | Q]); [left | right];
    destruct (latest_present rows latest _ L (ex_intro _ r (conj Hr Q)))
      as (e & _ & G & _); congruence.
Qed.

End MainSummaryFacts.

(** X10.  In [main] the summary is drawn from the merged history: for a row
    [x] just parsed, the value written for its variant is that of a saved
    row of the same variant whose effective date is not before the one of
    [x] and which, when the dates agree, was collected at the same time as
    [x] or later. *)
Theorem main_summary_most_recent (precos prices : file)
    (arabica conillon saved : list Cepea.row) (summary : json)
    (t field : string) (x : Cepea.row) :
  Cepea.main precos prices arabica conillon = Ok (saved, summary) ->
  (t = "arabica" /\ field = "arabica") \/ (t = "conillon" /\ field = "robusta") ->
  In x (arabica ++ conillon) -> quotes (Some t) x ->
  exists r, In r saved /\ quotes (Some t) r /\
            member field (cafe_of summary) = Cepea.valor r /\
            str_le (Cepea.effective_date x) (Cepea.effective_date r) = true /\
            (Cepea.effective_date x = Cepea.effective_date r ->
             str_le (Cepea.coletado_em x) (Cepea.coletado_em r) = true).
Proof.
  intros H Hf Hx Qx. destruct (main_ok _ _ _ _ _ _ H) as [M U].
  destruct (merged_rows_ok _ _ _ _ M) as [history ->].
  apply (summary_of_dedup _ prices summary t field x U Hf); [|exact Qx].
  apply in_or_app. right. exact Hx.
Qed.

Lemma main_summary_most_recent_witness :
  exists r, In r [second_scrape] /\ quotes (Some "arabica") r /\
            member "arabica"
              (cafe_of (JObj [("cafe", JObj [("date", JStr "2025-09-04");
                                             ("arabica", JNum 227703%Z)])]))
            = Cepea.valor r /\
            str_le (Cepea.effective_date first_scrape) (Cepea.effective_date r) = true /\
            (Cepea.effective_date first_scrape = Cepea.effective_date r ->
             str_le (Cepea.coletado_em first_scrape) (Cepea.coletado_em r) = true).
Proof.
  apply (main_summary_most_recent NoFile NoFile [first_scrape; second_scrape] []
           [second_scrape] _ "arabica" "arabica" first_scrape).
  - reflexivity.
  - left. split; reflexivity.
  - left. reflexivity.
  - split; reflexivity.
Defined.

(** X11.  How [update_price_summary] ends when every row has its [valor].
    A summary file that parses to anything but an object ends it with
    [AttributeError].  An object whose "cafe" is not an object ends it with
    [TypeError] as soon as a row quotes arabica or conillon, and is written
    back unchanged otherwise.  In every other case, a missing or broken file
    included, the summary is written. *)
Theorem summary_errors (rows : list Cepea.row) (f : file) :
  (forall r, In r rows -> Cepea.valor r <> None) ->
  ((forall o, Cepea.load_summary f <> JObj o) ->
   Cepea.update_price_summary rows f = Raise AttributeError) /\
  (forall o c,
     Cepea.load_summary f = JObj o -> get String.eqb "cafe" o = Some c ->
     (forall o', c <> JObj o') ->
     (quoted rows -> Cepea.update_price_summary rows f = Raise TypeError) /\
     (~ quoted rows -> Cepea.update_price_summary rows f = Ok (JObj o))) /\
  (writable f -> exists new, Cepea.update_price_summary rows f = Ok new).
Proof.
  intros Hv. destruct (latest_loop_total rows [] Hv) as [latest L].
  split; [|split].
  - intros Hn. rewrite ups_unfold, L. cbn [bind].
    destruct (Cepea.load_summary f) as [| | | | |o]; try reflexivity.
    exfalso. apply (Hn o). reflexivity.
  - intros o c Hl Hc Hno.
    assert (S1 : forall k v, Cepea.setitem c k v = Raise TypeError).
    { intros k v. destruct c; try reflexivity. exfalso. apply (Hno o0). reflexivity. }
    split.
    + intros Q. rewrite ups_unfold, L, Hl. cbn [bind Cepea.get_cafe]. rewrite Hc.
      cbn [bind]. unfold date_value, Cepea.summary_date.
      destruct (latest_quoted rows latest L Q) as [G | G].
      * destruct (get opt_eqb (Some "arabica") latest) as [a|]; [|congruence].
        destruct (get opt_eqb (Some "conillon") latest) as [k|];
          match goal with
          | |- context [truthy ?d] => destruct (truthy d)
          end; cbn [assign bind option_map]; rewrite ?S1; reflexivity.
      * destruct (get opt_eqb (Some "conillon") latest) as [k|]; [|congruence].
        destruct (get opt_eqb (Some "arabica") latest) as [a|];
          match goal with
          | |- context [truthy ?d] => destruct (truthy d)
          end; cbn [assign bind option_map]; rewrite ?S1; reflexivity.
    + intros Q. rewrite ups_unfold, L, Hl. cbn [bind Cepea.get_cafe]. rewrite Hc.
      cbn [bind]. unfold date_value, Cepea.summary_date.
      rewrite (latest_absent rows latest (Some "arabica") L),
              (latest_absent rows latest (Some "conillon") L).
      * cbn [assign bind option_map Cepea.setitem].
        rewrite (set_get_same _ _ _ Hc). reflexivity.
      * intros r Hr Qr. apply Q. exists r. auto.
      * intros r Hr Qr. apply Q. exists r. auto.
  - apply ups_total. exact Hv.
Qed.

Lemma summary_errors_witness :
  Cepea.update_price_summary [arabica_fifth] (Json (JList [])) = Raise AttributeError /\
  Cepea.update_price_summary [arabica_fifth] (Json (JObj [("cafe", JNull)]))
    = Raise TypeError /\
  Cepea.update_price_summary [] (Json (JObj [("cafe", JNull)]))
    = Ok (JObj [("cafe", JNull)]) /\
  exists new, Cepea.update_price_summary [arabica_fifth] BadJson = Ok new.
Proof.
  assert (V : forall r, In r [arabica_fifth] -> Cepea.valor r <> None).
  { intros r [<- | []]. discriminate. }
  destruct (summary_errors [arabica_fifth] (Json (JList [])) V) as (A1 & _ & _).
  destruct (summary_errors [arabica_fifth] (Json (JObj [("cafe", JNull)])) V)
    as (_ & B2 & _).
  destruct (summary_errors [] (Json (JObj [("cafe", JNull)]))
              (fun r (H : In r []) => match H with end)) as (_ & C2 & _).
  destruct (summary_errors [arabica_fifth] BadJson V) as (_ & _ & D3).
  split; [|split; [|split]].
  - apply A1. intros o. discriminate.
  - apply (B2 [("cafe", JNull)] JNull eq_refl eq_refl); [intros o'; discriminate|].
    exists arabica_fifth. split; [left; reflexivity | left; split; reflexivity].
  - apply (C2 [("cafe", JNull)] JNull eq_refl eq_refl); [intros o'; discriminate|].
    intros (r & [] & _).
  - apply D3. exact I.
Defined.

(** X12.  When only arabica is quoted, the summary takes its value and its
    date from the latest arabica row, whatever date it held before, and
    leaves "robusta" as it was: the date of the summary can go back, and it
    then says nothing of when the value of robusta was quoted. *)
Theorem summary_single_variant (rows : list Cepea.row) (prev new : json)
    (ra : Cepea.row) :
  Cepea.update_price_summary rows (Json prev) = Ok new ->
  latest_row (Some "arabica") rows ra ->
  (forall r, In r rows -> ~ quotes (Some "conillon") r) ->
  member "arabica" (cafe_of new) = Cepea.valor ra /\
  member "date" (cafe_of new)
    = (if truthy (Cepea.effective_date ra)
       then Some (JStr (Cepea.effective_date ra))
       else member "date" (cafe_of prev)) /\
  member "robusta" (cafe_of new) = member "robusta" (cafe_of prev).
Proof.
  intros H La Hc. destruct (ups_spec _ _ _ H) as (latest & L & _ & Cafe).
  simpl in Cafe.
  assert (P : exists x, In x rows /\ quotes (Some "arabica") x).
  { destruct La as [Q F]. exists ra. split; [apply (fm_in _ _ _ _ F) | exact Q]. }
  destruct (latest_present rows latest _ L P) as (e & r & G & Lr & D & V).
  assert (r = ra) by (apply (latest_row_unique (Some "arabica") rows); assumption).
  subst r.
  pose proof (latest_absent rows latest _ L Hc) as Gc.
  split; [|split].
  - rewrite Cafe. unfold written. simpl. rewrite G, V. reflexivity.
  - rewrite Cafe. unfold written, date_value, Cepea.summary_date. simpl.
    rewrite G, Gc, D. destruct (truthy (Cepea.effective_date ra)); reflexivity.
  - rewrite Cafe. unfold written. simpl. rewrite Gc. reflexivity.
Qed.

Lemma summary_single_variant_witness :
  member "date" (cafe_of previous_summary) = Some (JStr "2025-09-03") /\
  exists new,
    Cepea.update_price_summary [arabica_second] (Json previous_summary) = Ok new /\
    member "arabica" (cafe_of new) = Some (JNum 226000%Z) /\
    member "date" (cafe_of new) = Some (JStr "2025-09-02") /\
    member "robusta" (cafe_of new) = Some (JNum 139900%Z).
Proof.
  split; [reflexivity|]. eexists. split; [reflexivity|].
  apply (summary_single_variant [arabica_second] previous_summary _ arabica_second
           eq_refl).
  - split; [split; reflexivity|]. exists [], []. split; [reflexivity|].
    split; intros x [].
  - intros r [<- | []] [_ Q]. discriminate Q.
Defined.

(** ** [update_history]: the entries of the day *)

Section DayFacts.
Import Scrape.

Lemma in_extend (history : list record) (pa pc : number) (day ts : string) (r : record) :
  In r (extend_history history pa pc day ts) <->
  (In r history /\ ~ (referente_a r = day /\ is_cafe r = true)) \/
  r = entry day ts "arabica" pa \/ r = entry day ts "conillon" pc.
Proof.
  unfold extend_history. rewrite in_app_iff, filter_In. simpl.
  assert (K : negb ((referente_a r =? day) && is_cafe r) = true <->
              ~ (referente_a r = day /\ is_cafe r = true)).
  { destruct (String.eqb_spec (referente_a r) day) as [E | E];
      destruct (is_cafe r); simpl; intuition congruence. }
  rewrite K. intuition congruence.
Qed.

Lemma newer_dates_extend (history : list record) (pa pc : number) (day ts : string) :
  List.length (newer_dates day (extend_history history pa pc day ts))
  = List.length (newer_dates day history).
Proof.
  apply Permutation_length, NoDup_Permutation.
  - apply NoDup_filter, NoDup_nodup.
  - apply NoDup_filter, NoDup_nodup.
  - intros d. unfold newer_dates, scrape_dates.
    rewrite !filter_In, !nodup_In, !in_map_iff. split.
    + intros [(r & E & H) L]. split; [|exact L].
      apply in_extend in H. destruct H as [[H _] | [-> | ->]].
      * exists r. auto.
      * simpl in E. subst d. rewrite str_lt_irrefl in L. discriminate.
      * simpl in E. subst d. rewrite str_lt_irrefl in L. discriminate.
    + intros [(r & E & H) L]. split; [|exact L].
      exists r. split; [exact E|]. apply in_extend. left. split; [exact H|].
      intros [F _]. rewrite F in E. subst d. rewrite str_lt_irrefl in L. discriminate.
Qed.

Lemma fresh_entry_kept (history : list record) (pa pc : number) (day ts : string)
    (e : record) :
  e = entry day ts "arabica" pa \/ e = entry day ts "conillon" pc ->
  (In e (prune (extend_history history pa pc day ts)) <->
   List.length (newer_dates day history) < 10).
Proof.
  intros He. rewrite in_prune.
  assert (D : referente_a e = day) by (destruct He as [-> | ->]; reflexivity).
  rewrite D, newer_dates_extend. split; [tauto|].
  intros H. split; [|exact H]. apply in_extend. tauto.
Qed.

Lemma mapM_in {A B : Type} (g : A -> result B) (l : list A) (l' : list B) :
  mapM g l = Ok l' ->
  forall y, In y l' -> exists x, In x l /\ g x = Ok y.
Proof.
  revert l'. induction l as [|a l IH]; intros l' H y Hy; simpl in H.
  - injection H as <-. destruct Hy.
  - destruct (g a) as [b|] eqn:G; [|discriminate]. cbn [bind] in H.
    destruct (mapM g l) as [bs|]; [|discriminate]. cbn [bind] in H.
    injection H as <-. destruct Hy as [<- | Hy].
    + exists a. split; [left; reflexivity | exact G].
    + destruct (IH bs eq_refl y Hy) as (x & Hx & Gx). exists x. simpl. auto.
Qed.

End DayFacts.

(** X13.  After [update_history] the "cafe" entries the file holds for the
    day are the two just built and no other; every other entry written is
    the reading of an element of the file that was loaded. *)
Theorem update_history_replaces_day (f : file) (arabica_price conilon_price : number)
    (day iso_ts : string) (out : list Scrape.record) :
  Scrape.update_history f arabica_price conilon_price day iso_ts = Ok out ->
  exists j elements,
    Scrape.load f = Ok j /\ Scrape.iterate j = Ok elements /\
    forall r, In r out ->
      (r = Scrape.entry day iso_ts "arabica" arabica_price \/
       r = Scrape.entry day iso_ts "conillon" conilon_price) \/
      ((exists e, In e elements /\ Scrape.as_record e = Ok r) /\
       ~ (Scrape.referente_a r = day /\ Scrape.is_cafe r = true)).
Proof.
  unfold Scrape.update_history. intros H.
  destruct (Scrape.load f) as [j|] eqn:Lf; [|discriminate]. cbn [bind] in H.
  destruct (Scrape.iterate j) as [elements|] eqn:It; [|discriminate].
  cbn [bind] in H.
  destruct (mapM Scrape.as_record elements) as [history|] eqn:M; [|discriminate].
  cbn [bind] in H. injection H as <-.
  exists j, elements. split; [reflexivity|]. split; [exact It|].
  intros r Hr. apply in_prune in Hr. destruct Hr as [Hr _].
  apply in_extend in Hr. destruct Hr as [[Hr Hn] | Hr]; [|left; exact Hr].
  right. split; [|exact Hn]. apply (mapM_in _ _ _ M r Hr).
Qed.

Lemma update_history_replaces_day_witness :
  Scrape.update_history
    (Json (JList [JObj [("referente_a", JStr "2025-09-05"); ("produto", JStr "cafe");
                        ("tipo", JStr "arabica"); ("valor", JNum 227000%Z)];
                  JObj [("referente_a", JStr "2025-09-04"); ("produto", JStr "cafe");
                        ("tipo", JStr "arabica"); ("valor", JNum 226500%Z)]]))
    227703%Z 140000%Z "2025-09-05" "2025-09-05T21:00:00"
  = Ok [Scrape.entry "2025-09-05" "2025-09-05T21:00:00" "arabica" 227703%Z;
        Scrape.entry "2025-09-05" "2025-09-05T21:00:00" "conillon" 140000%Z;
        Scrape.mkRecord "2025-09-04" (Some (JStr "cafe")) (Some "arabica")
          [("valor", JNum 226500%Z)]] /\
  exists j elements,
    Scrape.load
      (Json (JList [JObj [("referente_a", JStr "2025-09-05"); ("produto", JStr "cafe");
                          ("tipo", JStr "arabica"); ("valor", JNum 227000%Z)];
                    JObj [("referente_a", JStr "2025-09-04"); ("produto", JStr "cafe");
                          ("tipo", JStr "arabica"); ("valor", JNum 226500%Z)]]))
    = Ok j /\ Scrape.iterate j = Ok elements /\
    forall r,
      In r [Scrape.entry "2025-09-05" "2025-09-05T21:00:00" "arabica" 227703%Z;
            Scrape.entry "2025-09-05" "2025-09-05T21:00:00" "conillon" 140000%Z;
            Scrape.mkRecord "2025-09-04" (Some (JStr "cafe")) (Some "arabica")
              [("valor", JNum 226500%Z)]] ->
      (r = Scrape.entry "2025-09-05" "2025-09-05T21:00:00" "arabica" 227703%Z \/
       r = Scrape.entry "2025-09-05" "2025-09-05T21:00:00" "conillon" 140000%Z) \/
      ((exists e, In e elements /\ Scrape.as_record e = Ok r) /\
       ~ (Scrape.referente_a r = "2025-09-05" /\ Scrape.is_cafe r = true)).
Proof.
  split; [reflexivity|].
  apply (update_history_replaces_day _ 227703%Z 140000%Z
           "2025-09-05" "2025-09-05T21:00:00").
  reflexivity.
Defined.

(** X14.  The two entries just built are written exactly when the history
    read holds fewer than ten distinct dates after theirs: on a file that
    already has ten later days, the day just scraped is dropped at once. *)
Theorem fresh_entries_kept (history : list Scrape.record)
    (arabica_price conilon_price : number) (day iso_ts : string) :
  (In (Scrape.entry day iso_ts "arabica" arabica_price)
      (Scrape.prune
         (Scrape.extend_history history arabica_price conilon_price day iso_ts))
   <-> List.length (newer_dates day history) < 10) /\
  (In (Scrape.entry day iso_ts "conillon" conilon_price)
      (Scrape.prune
         (Scrape.extend_history history arabica_price conilon_price day iso_ts))
   <-> List.length (newer_dates day history) < 10) /\
  (10 <= List.length (newer_dates day history) ->
   forall r, In r (Scrape.prune
                     (Scrape.extend_history history arabica_price conilon_price
                        day iso_ts)) ->
             In r history /\ Scrape.referente_a r <> day).
Proof.
  split; [apply fresh_entry_kept; auto|]. split; [apply fresh_entry_kept; auto|].
  intros L r Hr. apply in_prune in Hr. destruct Hr as [Hr Hn].
  assert (D : Scrape.referente_a r <> day).
  { intros E. rewrite E, newer_dates_extend in Hn. lia. }
  split; [|exact D]. apply in_extend in Hr.
  destruct Hr as [[Hr _] | [-> | ->]]; [exact Hr | |]; exfalso; apply D; reflexivity.
Qed.

Lemma fresh_entries_kept_witness :
  10 <= List.length (newer_dates "2025-09-01" ten_later_days) /\
  Scrape.prune (Scrape.extend_history ten_later_days 227703%Z 140000%Z
                  "2025-09-01" "2025-09-01T21:00:00")
    = rev ten_later_days /\
  forall r, In r (Scrape.prune
                    (Scrape.extend_history ten_later_days 227703%Z 140000%Z
                       "2025-09-01" "2025-09-01T21:00:00")) ->
            In r ten_later_days /\ Scrape.referente_a r <> "2025-09-01".
Proof.
  assert (L : 10 <= List.length (newer_dates "2025-09-01" ten_later_days)).
  { vm_compute. apply le_n. }
  split; [exact L|]. split; [reflexivity|].
  apply (fresh_entries_kept ten_later_days 227703%Z 140000%Z
           "2025-09-01" "2025-09-01T21:00:00"). exact L.
Defined.

(** X15.  A history file that holds a JSON value other than a list is not
    set aside: a number, [true], [false] or [null] ends [update_history]
    with [TypeError], an object or a string that is not empty ends it with
    [AttributeError], and only the empty object and the empty string count
    as the empty history. *)
Theorem update_history_not_a_list (arabica_price conilon_price : number)
    (day iso_ts : string) :
  (forall j, (exists n, j = JNum n) \/ (exists b, j = JBool b) \/ j = JNull ->
     Scrape.update_history (Json j) arabica_price conilon_price day iso_ts
     = Raise TypeError) /\
  (forall kv o,
     Scrape.update_history (Json (JObj (kv :: o))) arabica_price conilon_price
       day iso_ts = Raise AttributeError) /\
  (forall c s,
     Scrape.update_history (Json (JStr (String c s))) arabica_price conilon_price
       day iso_ts = Raise AttributeError) /\
  (forall j, j = JObj [] \/ j = JStr EmptyString ->
     Scrape.update_history (Json j) arabica_price conilon_price day iso_ts
     = Scrape.update_history NoFile arabica_price conilon_price day iso_ts).
Proof.
  split; [|split; [|split]].
  - intros j [[n ->] | [[b ->] | ->]]; reflexivity.
  - intros kv o. reflexivity.
  - intros c s. reflexivity.
  - intros j [-> | ->]; reflexivity.
Qed.

(** ** The texts of [scrape_prices.py] *)

Section TextFacts.

Lemma compare_app (p q s t : string) :
  String.length p = String.length q ->
  String.compare (p ++ s)%string (q ++ t)%string
  = match String.compare p q with
    | Eq => String.compare s t
    | c => c
    end.
Proof.
  revert q. induction p as [|a p IH]; intros [|b q] L; simpl in L; try discriminate.
  - reflexivity.
  - simpl. destruct (Ascii.compare a b); try reflexivity.
    apply IH. congruence.
Qed.

(** The separators swapped by [format_brl]. *)
Lemma swap_then_price_text (us : string) :
  ~ In "X"%char (list_ascii_of_string us) ->
  Scrape.price_text
    (PyStr.replace "X" "." (PyStr.replace "." "," (PyStr.replace "," "X" us)))
  = PyStr.replace "," EmptyString us.
Proof.
  unfold Scrape.price_text.
  induction us as [|c us IH]; intros H; [reflexivity|].
  simpl in H.
  assert (Hc : c <> "X"%char) by tauto.
  assert (Hus : ~ In "X"%char (list_ascii_of_string us)) by tauto.
  specialize (IH Hus).
  destruct (Ascii.eqb_spec c ",") as [-> | N1]; [simpl; exact IH|].
  destruct (Ascii.eqb_spec c ".") as [-> | N2]; [simpl; rewrite IH; reflexivity|].
  apply Ascii.eqb_neq in N1, N2, Hc.
  cbn [PyStr.replace]. rewrite N1. cbn [PyStr.replace]. rewrite N2.
  cbn [PyStr.replace]. rewrite Hc. cbn [PyStr.replace]. rewrite N2.
  cbn [PyStr.replace]. rewrite N1. rewrite IH. reflexivity.
Qed.

End TextFacts.

(** X16.  [main] of [scrape_prices.py] keeps, of the two [dd/mm/yyyy] dates,
    the greater in the order of [str]: when the day parts differ they alone
    decide, whatever the months and the years, so the date kept can be the
    earlier of the two. *)
Theorem trade_date_day_first (day_a day_c rest_a rest_c : string) :
  String.length day_a = String.length day_c ->
  day_a <> day_c ->
  Scrape.trade_date (day_a ++ rest_a)%string (day_c ++ rest_c)%string
  = if str_lt day_c day_a then (day_a ++ rest_a)%string else (day_c ++ rest_c)%string.
Proof.
  intros L N. unfold Scrape.trade_date, str_ge, str_lt, String.leb, String.ltb.
  rewrite (compare_app day_c day_a rest_c rest_a) by congruence.
  destruct (String.compare day_c day_a) eqn:E; try reflexivity.
  apply String.compare_eq_iff in E. congruence.
Qed.

Lemma trade_date_day_first_witness :
  Scrape.trade_date ("30" ++ "/09/2025")%string ("01" ++ "/10/2025")%string
  = "30/09/2025".
Proof.
  rewrite (trade_date_day_first "30" "01" "/09/2025" "/10/2025" eq_refl).
  - reflexivity.
  - discriminate.
Defined.

(** X17.  What [format_brl] writes can be read back: for a text [us] free
    of ["X"], as the digits, [","] and ["."] of a formatted amount are, the
    result is ["R$ "] followed by a text that the replacements of
    [parse_price] and of [br_to_float] both turn into [us] without its
    [","]. *)
Theorem format_brl_read_back (us : string) :
  ~ In "X"%char (list_ascii_of_string us) ->
  exists t,
    Scrape.format_brl us = ("R$ " ++ t)%string /\
    Scrape.price_text t = PyStr.replace "," EmptyString us /\
    Cepea.br_text t = PyStr.replace "," EmptyString us.
Proof.
  intros H.
  exists (PyStr.replace "X" "." (PyStr.replace "." "," (PyStr.replace "," "X" us))).
  split; [reflexivity|].
  split; [apply swap_then_price_text, H|].
  change (Cepea.br_text ?x) with (Scrape.price_text x).
  apply swap_then_price_text, H.
Qed.

Lemma format_brl_read_back_witness :
  Scrape.format_brl "2,277.03" = "R$ 2.277,03" /\
  exists t,
    Scrape.format_brl "2,277.03" = ("R$ " ++ t)%string /\
    Scrape.price_text t = "2277.03" /\
    Cepea.br_text t = "2277.03".
Proof.
  split; [reflexivity|].
  apply (format_brl_read_back "2,277.03").
  simpl. intros [F | [F | [F | [F | [F | [F | [F | [F | []]]]]]]]]; discriminate F.
Defined.

(** ** The stable sort, by classes of equal keys *)

Section StableFacts.
Context {A : Type}.
Variable key : A -> string.

Lemma filter_insert (k : string) (x : A) (l : list A) :
  filter (in_class key k) (insert key str_lt x l)
  = if in_class key k x then x :: filter (in_class key k) l else filter (in_class key k) l.
Proof.
  induction l as [|y l IH]; simpl.
  - destruct (in_class key k x); reflexivity.
  - destruct (str_lt (key y) (key x)) eqn:L; simpl.
    + rewrite IH. unfold in_class in *.
      destruct (String.eqb_spec (key x) k) as [Ex | Ex]; [|reflexivity].
      destruct (String.eqb_spec (key y) k) as [Ey | Ey]; [|reflexivity].
      rewrite Ex, Ey, str_lt_irrefl in L. discriminate.
    + destruct (in_class key k x); reflexivity.
Qed.

(** The sort leaves the elements of one key in the order they came. *)
Lemma filter_sorted_class (k : string) (l : list A) :
  filter (in_class key k) (sorted key str_lt l) = filter (in_class key k) l.
Proof.
  induction l as [|x l IH]; simpl; [reflexivity|].
  rewrite filter_insert, IH. reflexivity.
Qed.

Lemma sorted_strong (l : list A) : StronglySorted (key_le key) (sorted key str_lt l).
Proof.
  apply Sorted_StronglySorted.
  - intros x y z H1 H2. unfold key_le in *. eapply str_le_trans; eauto.
  - apply (Sorted_impl (ascending key str_lt)).
    + intros x y H. apply str_lt_false_le, H.
    + apply sorted_sorted. intros a b. apply str_lt_asym.
Qed.

Lemma strong_filter (p : A -> bool) (l : list A) :
  StronglySorted (key_le key) l -> StronglySorted (key_le key) (filter p l).
Proof.
  induction 1 as [|x l S1 IH F]; simpl; [constructor|].
  destruct (p x); [|exact IH]. constructor; [exact IH|].
  rewrite Forall_forall in *. intros y Hy. apply F. apply filter_In in Hy. tauto.
Qed.

(** Two sorted lists with the same elements of each key, in the same order,
    are equal. *)
Lemma class_unique (l1 : list A) :
  forall l2,
    StronglySorted (key_le key) l1 -> StronglySorted (key_le key) l2 ->
    (forall k, filter (in_class key k) l1 = filter (in_class key k) l2) ->
    l1 = l2.
Proof.
  induction l1 as [|x t1 IH]; intros l2 S1 S2 H.
  - destruct l2 as [|y t2]; [reflexivity|].
    specialize (H (key y)). simpl in H. unfold in_class in H at 1.
    rewrite String.eqb_refl in H. discriminate.
  - destruct l2 as [|y t2].
    + specialize (H (key x)). simpl in H. unfold in_class in H at 1.
      rewrite String.eqb_refl in H. discriminate.
    + inversion S1 as [|? ? S1' F1]; subst. inversion S2 as [|? ? S2' F2]; subst.
      rewrite Forall_forall in F1, F2.
      assert (Hx : In x (y :: t2)).
      { assert (I : In x (filter (in_class key (key x)) (y :: t2))).
        { rewrite <- H. simpl. unfold in_class at 1. rewrite String.eqb_refl.
          left. reflexivity. }
        apply filter_In in I. tauto. }
      assert (Hy : In y (x :: t1)).
      { assert (I : In y (filter (in_class key (key y)) (x :: t1))).
        { rewrite H. simpl. unfold in_class at 1. rewrite String.eqb_refl.
          left. reflexivity. }
        apply filter_In in I. tauto. }
      assert (K : key x = key y).
      { destruct Hx as [Hx | Hx]; [congruence|].
        destruct Hy as [Hy | Hy]; [congruence|].
        apply str_le_antisym; [apply (F1 y Hy) | apply (F2 x Hx)]. }
      assert (E : x = y).
      { specialize (H (key x)). cbn [filter] in H.
        assert (Cx : in_class key (key x) x = true) by apply String.eqb_refl.
        assert (Cy : in_class key (key x) y = true).
        { unfold in_class. rewrite <- K. apply String.eqb_refl. }
        rewrite Cx, Cy in H. congruence. }
      subst y. f_equal. apply IH; [exact S1' | exact S2'|].
      intros k. specialize (H k). simpl in H.
      destruct (in_class key k x); congruence.
Qed.

Lemma sorted_filter (p : A -> bool) (l : list A) :
  filter p (sorted key str_lt l) = sorted key str_lt (filter p l).
Proof.
  apply class_unique.
  - apply strong_filter, sorted_strong.
  - apply sorted_strong.
  - intros k. rewrite filter_sorted_class.
    assert (C : forall q (m : list A),
              filter (in_class key k) (filter q m) = filter q (filter (in_class key k) m)).
    { intros q m. induction m as [|y m IHm]; simpl; [reflexivity|].
      destruct (q y) eqn:Q, (in_class key k y) eqn:I; simpl; rewrite ?Q, ?I, IHm; reflexivity. }
    rewrite !C, filter_sorted_class. reflexivity.
Qed.

Lemma sorted_app_sorted (r m : list A) :
  sorted key str_lt (sorted key str_lt r ++ m) = sorted key str_lt (r ++ m).
Proof.
  apply class_unique; [apply sorted_strong | apply sorted_strong|].
  intros k. rewrite !filter_sorted_class, !filter_app, filter_sorted_class.
  reflexivity.
Qed.

End StableFacts.

(** ** [update_history] run again *)

Section RerunFacts.
Import Scrape.

Lemma desc_unique (l1 : list string) :
  forall l2,
    StronglySorted (fun x y => str_lt y x = true) l1 ->
    StronglySorted (fun x y => str_lt y x = true) l2 ->
    (forall x, In x l1 <-> In x l2) ->
    l1 = l2.
Proof.
  induction l1 as [|a t1 IH]; intros l2 S1 S2 H.
  - destruct l2 as [|b t2]; [reflexivity|].
    exfalso. apply (proj2 (H b)). left. reflexivity.
  - destruct l2 as [|b t2]; [exfalso; apply (proj1 (H a)); left; reflexivity|].
    inversion S1 as [|? ? S1' F1]; subst. inversion S2 as [|? ? S2' F2]; subst.
    rewrite Forall_forall in F1, F2.
    assert (E : a = b).
    { destruct (proj1 (H a) (or_introl eq_refl)) as [E | Ha]; [congruence|].
      destruct (proj2 (H b) (or_introl eq_refl)) as [E | Hb]; [congruence|].
      pose proof (F2 a Ha) as L1. pose proof (F1 b Hb) as L2.
      rewrite (str_lt_asym _ _ L1) in L2. discriminate. }
    subst b. f_equal. apply IH; [exact S1' | exact S2'|].
    intros x. split; intros Hx.
    + destruct (proj1 (H x) (or_intror Hx)) as [E | Hx']; [|exact Hx'].
      subst x. pose proof (F1 a Hx) as L. rewrite str_lt_irrefl in L. discriminate.
    + destruct (proj2 (H x) (or_intror Hx)) as [E | Hx']; [|exact Hx'].
      subst x. pose proof (F2 a Hx) as L. rewrite str_lt_irrefl in L. discriminate.
Qed.

Lemma desc_prefix (ds : list string) :
  StronglySorted (fun x y => str_lt y x = true) ds ->
  forall n x,
    n <= List.length (filter (str_lt x) ds) ->
    (forall y, In y (firstn n ds) -> str_lt x y = true) /\
    List.length (firstn n ds) = n.
Proof.
  induction 1 as [|a t S1 IH F]; intros n x L.
  - simpl in L. replace n with 0 by lia. split; [intros y []|reflexivity].
  - destruct n as [|n]; [split; [intros y []|reflexivity]|].
    rewrite Forall_forall in F. simpl in L.
    destruct (str_lt x a) eqn:E.
    + simpl in L. destruct (IH n x) as [I1 I2]; [lia|].
      simpl. split; [|lia]. intros y [<- | Hy]; auto.
    + exfalso.
      assert (Z0 : filter (str_lt x) t = []).
      { apply filter_nil_iff. intros y Hy.
        destruct (str_lt x y) eqn:E'; [|reflexivity].
        pose proof (str_lt_trans _ _ _ E' (F y Hy)) as C. congruence. }
      rewrite Z0 in L. simpl in L. lia.
Qed.

Lemma keep_nodup (h : list record) : NoDup (keep_dates h).
Proof.
  pose proof (dates_sorted_nodup h) as N.
  rewrite <- (firstn_skipn 10 (dates_sorted h)) in N.
  apply NoDup_app_remove_r in N. exact N.
Qed.

Lemma keep_desc (h : list record) :
  StronglySorted (fun x y => str_lt y x = true) (keep_dates h).
Proof.
  apply StronglySorted_firstn, dates_sorted_desc.
Qed.

Lemma in_keep (h : list record) (d : string) :
  In d (keep_dates h) <->
  In d (map referente_a h) /\ List.length (newer_dates d h) < 10.
Proof. apply in_keep_dates. Qed.

(** A history whose dates lie between the dates kept of another and all its
    dates keeps the same dates. *)
Lemma keep_between (X Y : list record) :
  (forall x, In x (keep_dates X) -> In x (map referente_a Y)) ->
  (forall x, In x (map referente_a Y) -> In x (map referente_a X)) ->
  keep_dates Y = keep_dates X.
Proof.
  intros H1 H2. apply desc_unique; [apply keep_desc | apply keep_desc|].
  assert (Sub : forall x, incl (newer_dates x Y) (newer_dates x X)).
  { intros x y Hy. unfold newer_dates, scrape_dates in *.
    rewrite filter_In, nodup_In in *. destruct Hy as [Hy L]. auto. }
  intros x. split; intros Hx.
  - apply in_keep in Hx. destruct Hx as [Hx Ln]. apply in_keep.
    split; [auto|].
    destruct (Nat.lt_ge_cases (List.length (newer_dates x X)) 10) as [L | L]; [exact L|].
    exfalso.
    destruct (desc_prefix _ (dates_sorted_desc X) 10 x) as [P1 P2].
    { unfold newer_dates in L.
      rewrite (filter_perm_length (str_lt x) _ _ (scrape_dates_perm X)). exact L. }
    assert (I : incl (keep_dates X) (newer_dates x Y)).
    { intros y Hy. unfold newer_dates, scrape_dates.
      rewrite filter_In, nodup_In. split; [apply H1, Hy | apply P1, Hy]. }
    pose proof (NoDup_incl_length (keep_nodup X) I) as C.
    unfold keep_dates in C at 1. rewrite P2 in C. lia.
  - pose proof Hx as Hk. apply in_keep in Hx. destruct Hx as [Hx Ln]. apply in_keep.
    split; [apply H1, Hk|].
    assert (N : NoDup (newer_dates x Y)) by apply NoDup_filter, NoDup_nodup.
    pose proof (NoDup_incl_length N (Sub x)) as C. lia.
Qed.

Lemma filter_all {A : Type} (p : A -> bool) (l : list A) :
  (forall x, In x l -> p x = true) -> filter p l = l.
Proof.
  induction l as [|y l IH]; intros H; simpl; [reflexivity|].
  rewrite (H y (or_introl eq_refl)), IH; [reflexivity|].
  intros x Hx. apply H. simpl. auto.
Qed.

Lemma filter_comm {A : Type} (p q : A -> bool) (l : list A) :
  filter p (filter q l) = filter q (filter p l).
Proof.
  induction l as [|y l IH]; simpl; [reflexivity|].
  destruct (p y) eqn:P, (q y) eqn:Q; simpl; rewrite ?P, ?Q, IH; reflexivity.
Qed.

Lemma filter_day_flat_map (g : string -> list record) (x : string) (l : list string) :
  (forall d r, In r (g d) -> referente_a r = d) ->
  NoDup l -> In x l ->
  filter (on_date x) (flat_map g l) = g x.
Proof.
  intros Hg.
  assert (Out : forall m, ~ In x m -> filter (on_date x) (flat_map g m) = []).
  { intros m Hm. apply filter_nil_iff. intros r Hr. apply in_flat_map in Hr.
    destruct Hr as (d & Hd & Hr). unfold on_date. apply String.eqb_neq.
    rewrite (Hg d r Hr). intros E. subst d. tauto. }
  induction l as [|a l IH]; intros N Hx; [destruct Hx|].
  inversion N as [|? ? Hn N']; subst. simpl. rewrite filter_app.
  destruct (string_dec a x) as [E | E].
  - subst a. rewrite (Out l Hn), app_nil_r. apply filter_all.
    intros r Hr. unfold on_date. rewrite (Hg x r Hr). apply String.eqb_refl.
  - destruct Hx as [Hx | Hx]; [congruence|]. rewrite (IH N' Hx).
    replace (filter (on_date x) (g a)) with (@nil record); [reflexivity|].
    symmetry. apply filter_nil_iff. intros r Hr. unfold on_date.
    apply String.eqb_neq. rewrite (Hg a r Hr). exact E.
Qed.

(** What [prune] leaves of a date it keeps. *)
Lemma bucket_of_prune (X : list record) (x : string) :
  In x (keep_dates X) ->
  filter (on_date x) (prune X) = sorted tipo_key str_lt (filter (on_date x) X).
Proof.
  intros Hx. rewrite prune_unfold.
  apply (filter_day_flat_map
           (fun d => sorted tipo_key str_lt (filter (on_date d) X)) x).
  - intros d r Hr. rewrite sorted_in, filter_In in Hr.
    apply String.eqb_eq, Hr.
  - apply keep_nodup.
  - exact Hx.
Qed.

Lemma extend_unfold (h : list record) (pa pc : number) (day ts : string) :
  extend_history h pa pc day ts
  = filter (not_of_day day) h ++ [entry day ts "arabica" pa; entry day ts "conillon" pc].
Proof. reflexivity. Qed.

Lemma extend_dates (h : list record) (pa pc pa' pc' : number) (day ts ts' : string)
    (x : string) :
  In x (map referente_a (extend_history h pa pc day ts)) ->
  In x (map referente_a (extend_history h pa' pc' day ts')).
Proof.
  rewrite !extend_unfold, !map_app, !in_app_iff. simpl. tauto.
Qed.

Lemma fresh_not_kept (day ts : string) (pa pc : number) (x : string) :
  filter (not_of_day day)
    (filter (on_date x) [entry day ts "arabica" pa; entry day ts "conillon" pc]) = [].
Proof.
  apply filter_nil_iff. intros r Hr. apply filter_In in Hr. destruct Hr as [Hr _].
  destruct Hr as [<- | [<- | []]]; unfold not_of_day; simpl;
    rewrite String.eqb_refl; reflexivity.
Qed.

(** The entries of a kept date after a second run. *)
Lemma bucket_rerun (h : list record) (pa pc pa' pc' : number) (day ts ts' : string)
    (x : string) :
  In x (keep_dates (extend_history h pa pc day ts)) ->
  sorted tipo_key str_lt
    (filter (on_date x)
       (extend_history (prune (extend_history h pa pc day ts)) pa' pc' day ts'))
  = sorted tipo_key str_lt (filter (on_date x) (extend_history h pa' pc' day ts')).
Proof.
  intros Hx.
  rewrite (extend_unfold (prune _)), (extend_unfold h pa' pc'), !filter_app.
  rewrite (filter_comm (on_date x) (not_of_day day) (prune _)).
  rewrite (bucket_of_prune _ x Hx), sorted_filter.
  rewrite extend_unfold, !filter_app, fresh_not_kept, app_nil_r.
  rewrite (filter_all (not_of_day day)
             (filter (on_date x) (filter (not_of_day day) h))).
  - apply sorted_app_sorted.
  - intros r Hr. apply filter_In in Hr. destruct Hr as [Hr _].
    apply filter_In in Hr. tauto.
Qed.

Lemma flat_map_ext_in {A B : Type} (f g : A -> list B) (l : list A) :
  (forall x, In x l -> f x = g x) -> flat_map f l = flat_map g l.
Proof.
  induction l as [|a l IH]; intros H; simpl; [reflexivity|].
  rewrite (H a (or_introl eq_refl)), IH; [reflexivity|].
  intros x Hx. apply H. simpl. auto.
Qed.

Lemma keep_rerun (h : list record) (pa pc pa' pc' : number) (day ts ts' : string) :
  keep_dates (extend_history (prune (extend_history h pa pc day ts)) pa' pc' day ts')
  = keep_dates (extend_history h pa pc day ts).
Proof.
  apply keep_between.
  - intros x Hx. rewrite extend_unfold, map_app, in_app_iff.
    destruct (string_dec x day) as [E | E]; [right; simpl; auto|]. left.
    pose proof Hx as Hd. apply in_keep in Hd. destruct Hd as [Hd _].
    apply in_map_iff in Hd. destruct Hd as (r & Er & Hr).
    apply in_map_iff. exists r. split; [exact Er|]. apply filter_In. split.
    + apply in_prune_keep. subst x. split; [exact Hr | exact Hx].
    + unfold not_of_day. subst x.
      destruct (String.eqb_spec (referente_a r) day); [contradiction | reflexivity].
  - intros x Hx. rewrite extend_unfold, map_app, in_app_iff in Hx.
    destruct Hx as [Hx | Hx].
    + apply in_map_iff in Hx. destruct Hx as (r & Er & Hr).
      apply filter_In in Hr. destruct Hr as [Hr _]. apply in_prune_keep in Hr.
      apply in_map_iff. exists r. tauto.
    + rewrite extend_unfold, map_app, in_app_iff. right. exact Hx.
Qed.

Lemma keep_same_day (h : list record) (pa pc pa' pc' : number) (day ts ts' : string) :
  keep_dates (extend_history h pa' pc' day ts')
  = keep_dates (extend_history h pa pc day ts).
Proof.
  apply keep_between.
  - intros x Hx. apply in_keep in Hx. destruct Hx as [Hx _].
    apply (extend_dates h pa pc pa' pc' day ts ts' x Hx).
  - intros x. apply extend_dates.
Qed.

Lemma prune_keep_unfold (h : list record) :
  prune h
  = flat_map (fun d => sorted tipo_key str_lt (filter (on_date d) h)) (keep_dates h).
Proof. apply prune_unfold. Qed.

End RerunFacts.

(** X18.  Running [update_history] again for the same day comes to running
    it once with the later prices: the entries of the day are replaced and
    the rest of the file is written as the first run left it.  With the same
    prices and timestamp the second run writes the file of the first. *)
Theorem update_history_rerun (history : list Scrape.record)
    (pa pc pa' pc' : number) (day ts ts' : string) :
  Scrape.prune
    (Scrape.extend_history
       (Scrape.prune (Scrape.extend_history history pa pc day ts)) pa' pc' day ts')
  = Scrape.prune (Scrape.extend_history history pa' pc' day ts') /\
  Scrape.prune
    (Scrape.extend_history
       (Scrape.prune (Scrape.extend_history history pa pc day ts)) pa pc day ts)
  = Scrape.prune (Scrape.extend_history history pa pc day ts).
Proof.
  assert (G : forall qa qc t',
            Scrape.prune
              (Scrape.extend_history
                 (Scrape.prune (Scrape.extend_history history pa pc day ts))
                 qa qc day t')
            = Scrape.prune (Scrape.extend_history history qa qc day t')).
  { intros qa qc t'.
    rewrite (prune_keep_unfold (Scrape.extend_history (Scrape.prune _) _ _ _ _)),
      (prune_keep_unfold (Scrape.extend_history history qa qc day t')).
    rewrite keep_rerun, (keep_same_day history pa pc qa qc day ts t').
    apply flat_map_ext_in. intros x Hx. apply bucket_rerun. exact Hx. }
  split; apply G.
Qed.
